(** * satmap: GNSS satellite loading, positioning and plotting

    A shallow embedding of [satmap/utils.py].  Python values are modelled as
    the code uses them: [str] as [string] (the catalog URLs and the
    geolocation fields are ASCII), [float] as the primitive binary64 floats,
    a [dict] as an association list in insertion order, exceptions as the
    [Raise] branch of [result].  Calls into urllib, ephem, numpy and
    matplotlib are parameters of the sections that use them. *)

From Stdlib Require Import PrimFloat ZArith String Ascii List Lia.
From stdpp Require Import base option list strings gmap.

Local Open Scope string_scope.
Local Open Scope list_scope.

(** ** Exceptions and results *)

Inductive exn : Type :=
  | ValueError
  | KeyError
  | IndexError
  | AttributeError
  | URLError
  | RuntimeError.

Inductive result (A : Type) : Type :=
  | Ok (a : A)
  | Raise (e : exn).

Arguments Ok {A} a.
Arguments Raise {A} e.

Definition bind {A B : Type} (m : result A) (k : A -> result B) : result B :=
  match m with
  | Ok a => k a
  | Raise e => Raise e
  end.

Notation "'let*' x ':=' m 'in' k" := (bind m (fun x => k))
  (at level 10, x pattern, m at level 100, k at level 200).

(** Running a fallible function over a list, in order, stopping at the
    first exception. *)
Fixpoint mapM {A B : Type} (f : A -> result B) (l : list A)
  : result (list B) :=
  match l with
  | [] => Ok []
  | x :: l' =>
      let* y := f x in
      let* ys := mapM f l' in
      Ok (y :: ys)
  end.

Definition is_ok {A : Type} (m : result A) : Prop :=
  match m with
  | Ok _ => True
  | Raise _ => False
  end.

(** ** Python string operations used by the code *)

Module PyStr.

(** [s.rfind(c)] for a one-character [c]: index of the last occurrence,
    [-1] when there is none.  [rfind_from] scans left to right from index
    [i], remembering the last hit. *)
Fixpoint rfind_from (c : ascii) (s : string) (i last : Z) : Z :=
  match s with
  | EmptyString => last
  | String a s' =>
      rfind_from c s' (i + 1) (if Ascii.eqb a c then i else last)
  end.

Definition rfind (c : ascii) (s : string) : Z := rfind_from c s 0 (-1).

(** [s[n:]] and [s[:n]] for [0 <= n]. *)
Fixpoint slice_from (n : nat) (s : string) : string :=
  match n, s with
  | O, _ => s
  | S _, EmptyString => EmptyString
  | S n', String _ s' => slice_from n' s'
  end.

Fixpoint slice_to (n : nat) (s : string) : string :=
  match n, s with
  | O, _ => EmptyString
  | S _, EmptyString => EmptyString
  | S n', String a s' => String a (slice_to n' s')
  end.

(** [s[i:i+1]]: the one-character string at [i], empty out of range. *)
Definition char_at (i : nat) (s : string) : string :=
  slice_to 1 (slice_from i s).

(** [s.upper()] on ASCII text: [a]..[z] go to [A]..[Z].  [str.upper]
    also maps the cased code points beyond ASCII, which this function
    leaves as they are: it is [str.upper] on ASCII strings only, and the
    statements about keys below take the URL to be ASCII ([is_ascii]). *)
Definition upper_char (a : ascii) : ascii :=
  let n := nat_of_ascii a in
  if (97 <=? n)%nat && (n <=? 122)%nat then ascii_of_nat (n - 32) else a.

Fixpoint upper (s : string) : string :=
  match s with
  | EmptyString => EmptyString
  | String a s' => String (upper_char a) (upper s')
  end.

(** [s.split(c)] for a one-character separator [c]. *)
Fixpoint split (c : ascii) (s : string) : list string :=
  match s with
  | EmptyString => [EmptyString]
  | String a s' =>
      if Ascii.eqb a c then EmptyString :: split c s'
      else match split c s' with
           | [] => [String a EmptyString]
           | h :: t => String a h :: t
           end
  end.

(** Number of occurrences of [c] in [s] ([s.count(c)]). *)
Fixpoint count (c : ascii) (s : string) : nat :=
  match s with
  | EmptyString => 0
  | String a s' => (if Ascii.eqb a c then 1 else 0) + count c s'
  end.

End PyStr.

(** ** [os.path] (posixpath) *)

Module OsPath.
Import PyStr.

Definition sep : ascii := "/"%char.
Definition extsep : ascii := "."%char.

(** [posixpath.basename]: [i = p.rfind('/') + 1; return p[i:]]. *)
Definition basename (p : string) : string :=
  let i := (rfind sep p + 1)%Z in
  slice_from (Z.to_nat i) p.

(** The loop of [genericpath._splitext] that skips leading dots: [n] is
    the number of indices left before [dotIndex]; [true] when a
    character other than the dot is met. *)
Fixpoint has_non_dot (p : string) (filenameIndex n : nat) : bool :=
  match n with
  | O => false
  | S n' =>
      if String.eqb (char_at filenameIndex p) (String extsep EmptyString)
      then has_non_dot p (S filenameIndex) n'
      else true
  end.

(** [posixpath.splitext] ([genericpath._splitext] with no altsep). *)
Definition splitext (p : string) : string * string :=
  let sepIndex := rfind sep p in
  let dotIndex := rfind extsep p in
  if (sepIndex <? dotIndex)%Z
     && has_non_dot p (Z.to_nat (sepIndex + 1))
                      (Z.to_nat (dotIndex - (sepIndex + 1)))
  then (slice_to (Z.to_nat dotIndex) p, slice_from (Z.to_nat dotIndex) p)
  else (p, EmptyString).

End OsPath.

(** ** Location resolver *)

(** The JSON values [json.load] can return. *)
#[warnings="-register-all"]
Inductive json : Type :=
  | JNull
  | JBool (b : bool)
  | JNum (x : float)
  | JStr (s : string)
  | JArr (l : list json)
  | JObj (l : list (string * json)).

(** [data["loc"].split(",")] followed by the two-name unpacking. *)
Definition get_current_latlon (data : gmap string json)
  : result (string * string) :=
  match data !! "loc" with
  | None => Raise KeyError
  | Some (JStr loc) =>
      match PyStr.split ","%char loc with
      | [lat; lon] => Ok (lat, lon)
      | _ => Raise ValueError
      end
  | Some _ => Raise AttributeError
  end.

(** ** Group key of a catalog URL (utils.py line 96) *)

Definition sat_group_name (tle_file : string) : string :=
  PyStr.upper (fst (OsPath.splitext (OsPath.basename tle_file))).


(** ** Python containers *)

(** [l[i]] on a list: a negative index counts from the end, an index out
    of range raises [IndexError]. *)
Definition getitem {A : Type} (l : list A) (i : Z) : result A :=
  let j := if (i <? 0)%Z then (Z.of_nat (length l) + i)%Z else i in
  if (j <? 0)%Z then Raise IndexError
  else match l !! Z.to_nat j with
       | Some x => Ok x
       | None => Raise IndexError
       end.

(** A [dict] with [str] keys, as the list of its items in insertion
    order. *)
Module PyDict.

Definition t (V : Type) : Type := list (string * V).

(** [d[k] = v]: an existing key keeps its position and takes the new
    value, a new key goes last. *)
Fixpoint setitem {V : Type} (k : string) (v : V) (d : t V) : t V :=
  match d with
  | [] => [(k, v)]
  | (k', v') :: d' =>
      if String.eqb k' k then (k', v) :: d'
      else (k', v') :: setitem k v d'
  end.

Fixpoint get {V : Type} (k : string) (d : t V) : option V :=
  match d with
  | [] => None
  | (k', v') :: d' => if String.eqb k' k then Some v' else get k d'
  end.

Definition keys {V : Type} (d : t V) : list string := map fst d.
Definition values {V : Type} (d : t V) : list V := map snd d.
Definition items {V : Type} (d : t V) : list (string * V) := d.
Definition len {V : Type} (d : t V) : nat := length d.

End PyDict.

(** ** Satellite records and observers *)

(** An [ephem] body read from a TLE: its name, its two element lines, and
    the position fields [compute] fills in (angles in radians). *)
Record Sat : Type := mkSat {
  sat_name : string;
  sat_line1 : string;
  sat_line2 : string;
  sat_az : float;
  sat_alt : float;
  sat_sublat : float;
  sat_sublong : float
}.

(** Instants ([datetime] values) as microseconds since the epoch. *)
Abbreviation datetime := Z (only parsing).

(** Latitude and longitude arrive as strings or as numbers. *)
Inductive coord : Type :=
  | CStr (s : string)
  | CNum (x : float).

Record Observer : Type := mkObserver {
  obs_lon : coord;
  obs_lat : coord;
  obs_date : datetime
}.

(** ** Default arguments bound when [utils.py] is imported

    [def get_observer(lat, lon, obs_time=dt.datetime.utcnow())] evaluates
    the default expression once, when the [def] statement runs; the same
    holds for [plot_ground_tracks].  The imported module carries the two
    values. *)

Record utils_module : Type := mkUtils {
  get_observer_default : datetime;
  plot_ground_tracks_default : datetime
}.

(** The clock read by [dt.datetime.utcnow()]. *)
Record world : Type := mkWorld { utcnow : datetime }.

(** Importing the module: the two [def] statements read the clock at the
    instants they are executed. *)
Definition import_utils (w_def_observer w_def_ground : world) : utils_module :=
  {| get_observer_default := utcnow w_def_observer;
     plot_ground_tracks_default := utcnow w_def_ground |}.

(** The value bound to [obs_time] in a call made in world [w]: the
    argument when one is passed, the stored default otherwise.  The clock
    of the call is not read. *)
Definition bind_obs_time (default : datetime) (w : world)
    (obs_time : option datetime) : datetime :=
  match obs_time with
  | Some t => t
  | None => default
  end.

Definition get_observer (m : utils_module) (w : world)
    (lat lon : coord) (obs_time : option datetime) : Observer :=
  let obs_time := bind_obs_time (get_observer_default m) w obs_time in
  {| obs_lon := lon; obs_lat := lat; obs_date := obs_time |}.

(** ** Orbital element loader *)

Definition TLE_FILES : list string :=
  [ "https://www.celestrak.com/NORAD/elements/gps-ops.txt";
    "https://www.celestrak.com/NORAD/elements/glo-ops.txt";
    "https://www.celestrak.com/NORAD/elements/galileo.txt";
    "https://www.celestrak.com/NORAD/elements/beidou.txt";
    "https://www.celestrak.com/NORAD/elements/sbas.txt" ].

Section Loader.

(** [urlopen(url).read().decode("utf-8").splitlines()]: the lines of the
    response, or the exception of the fetch. *)
Variable urlopen_lines : string -> result (list string).

(** [ephem.readtle(name, line1, line2)]. *)
Variable readtle : string -> string -> string -> result Sat.

(** The loop over [enumerate(lines)] (lines 101-104): [rest] is what is
    left to enumerate, [ind_line] the index of its head. *)
Fixpoint read_sats_loop (lines rest : list string) (ind_line : Z)
    (sats : list Sat) : result (list Sat) :=
  match rest with
  | [] => Ok sats
  | line :: rest' =>
      if (ind_line mod 3 =? 2)%Z then
        let* l0 := getitem lines (ind_line - 2) in
        let* l1 := getitem lines (ind_line - 1) in
        let* sat := readtle l0 l1 line in
        read_sats_loop lines rest' (ind_line + 1) (sats ++ [sat])
      else read_sats_loop lines rest' (ind_line + 1) sats
  end.

Definition read_sats (lines : list string) : result (list Sat) :=
  read_sats_loop lines lines 0 [].

(** The loop over [tle_files] (lines 94-105). *)
Fixpoint read_tle_loop (tle_files : list string)
    (sat_groups : PyDict.t (list Sat)) : result (PyDict.t (list Sat)) :=
  match tle_files with
  | [] => Ok sat_groups
  | tle_file :: tle_files' =>
      let sat_group := sat_group_name tle_file in
      let* lines := urlopen_lines tle_file in
      let* sats := read_sats lines in
      read_tle_loop tle_files' (PyDict.setitem sat_group sats sat_groups)
  end.

Definition read_tle_files (tle_files : list string)
  : result (PyDict.t (list Sat)) :=
  read_tle_loop tle_files [].

End Loader.

(** ** Position computer, over the object store

    [compute_sat_positions] mutates the satellite objects its argument
    refers to.  The store holds the three kinds of object involved, each
    addressed by its index: satellite bodies, the lists of bodies, and the
    dicts from group name to list.  [compute_calls] records, in order, the
    bodies on which [compute] was invoked. *)

Abbreviation ref := nat (only parsing).

Record heap : Type := mkHeap {
  h_sats : list Sat;
  h_lists : list (list ref);
  h_dicts : list (PyDict.t ref);
  compute_calls : list ref
}.

(** Reading through a reference.  A reference into nothing does not exist
    in Python; the model answers [RuntimeError] there. *)
Definition deref {A : Type} (store : list A) (r : ref) : result A :=
  match store !! r with
  | Some x => Ok x
  | None => Raise RuntimeError
  end.

Section Computer.

(** [Body.compute(observer)]: the body with its position fields set for
    that observer, or the exception of the propagation engine. *)
Variable compute : Observer -> Sat -> result Sat.

(** [sat.compute(observer)] on the object at [sat]. *)
Definition sat_compute (observer : Observer) (sat : ref) (h : heap)
  : result heap :=
  let* body := deref (h_sats h) sat in
  let* body' := compute observer body in
  Ok {| h_sats := <[sat := body']> (h_sats h);
        h_lists := h_lists h;
        h_dicts := h_dicts h;
        compute_calls := compute_calls h ++ [sat] |}.

(** [for sat in sat_group: sat.compute(observer)]. *)
Fixpoint compute_group (observer : Observer) (sat_group : list ref)
    (h : heap) : result heap :=
  match sat_group with
  | [] => Ok h
  | sat :: sat_group' =>
      let* h' := sat_compute observer sat h in
      compute_group observer sat_group' h'
  end.

(** [for sat_group in sat_groups.values(): ...]. *)
Fixpoint compute_groups (observer : Observer) (values : list ref)
    (h : heap) : result heap :=
  match values with
  | [] => Ok h
  | sat_group :: values' =>
      let* group := deref (h_lists h) sat_group in
      let* h' := compute_group observer group h in
      compute_groups observer values' h'
  end.

Definition compute_sat_positions (sat_groups : ref) (observer : Observer)
    (h : heap) : result (ref * heap) :=
  let* d := deref (h_dicts h) sat_groups in
  let* h' := compute_groups observer (PyDict.values d) h in
  Ok (sat_groups, h').

End Computer.

(** The mapping a dict reference stands for: its keys in order, each with
    the references of its list. *)
Definition group_refs (h : heap) (sat_groups : ref)
  : result (PyDict.t (list ref)) :=
  let* d := deref (h_dicts h) sat_groups in
  mapM (fun item : string * ref =>
          let* group := deref (h_lists h) item.2 in
          Ok (item.1, group)) d.

(** The bodies the references of a mapping point to, in traversal order. *)
Definition flat_refs (groups : PyDict.t (list ref)) : list ref :=
  concat (PyDict.values groups).

(** ** Renderers *)

(** [float(n)] for a small natural number. *)
Fixpoint float_of_nat (n : nat) : float :=
  match n with
  | O => 0%float
  | S n' => (float_of_nat n' + 1)%float
  end.

(** [numpy.linspace(0, 1, num)]: [i * step + start] with
    [step = (stop - start) / (num - 1)], the last sample set to [stop];
    one sample is [start] alone. *)
Definition linspace01 (num : nat) : list float :=
  match num with
  | O => []
  | S O => [0%float]
  | S div =>
      let step := (1 / float_of_nat div)%float in
      map (fun i => (float_of_nat i * step + 0)%float) (seq 0 div)
        ++ [1%float]
  end.

(** [numpy.rad2deg]: [x * (180 / pi)] in binary64. *)
Definition NPY_PI : float := 0x1.921fb54442d18p+1%float.
Definition rad2deg (x : float) : float := (x * (180 / NPY_PI))%float.

Section Renderer.

(** An RGBA row of the colormap. *)
Variable Color : Type.

(** [cm.nipy_spectral] at one sample. *)
Variable nipy_spectral : float -> Color.

(** The Miller projection [m(lon, lat)] of one point. *)
Variable mill : float -> float -> float * float.

(** The calls the renderers make on the axes, the map and the figure. *)
Inductive draw : Type :=
  | SetThetaZeroLocation (loc : string)
  | SetThetaDirection (d : Z)
  | Scatter (xs ys : list float) (color : Color) (label : option string)
  | Annotate (text : string) (x y : float) (color : Color)
  | SetYTicks (ticks : list Z)
  | SetYTickLabels (labels : list string)
  | Grid (b : bool)
  | DrawCoastlines
  | BlueMarble
  | Nightshade (obs_time : datetime)
  | SupTitle (obs_time : datetime)
  | Legend.

(** [cm.nipy_spectral(np.linspace(0, 1, len(sat_groups)))]. *)
Definition group_colors (n : nat) : list Color :=
  map nipy_spectral (linspace01 n).

(** Lines 146-149: the satellites with [sat.alt > 0], appended one by
    one to [visible_sats]. *)
Fixpoint visible_loop (sat_group visible_sats : list Sat) : list Sat :=
  match sat_group with
  | [] => visible_sats
  | sat :: sat_group' =>
      if (0 <? sat_alt sat)%float
      then visible_loop sat_group' (visible_sats ++ [sat])
      else visible_loop sat_group' visible_sats
  end.

Definition visible (sat_group : list Sat) : list Sat :=
  visible_loop sat_group [].

(** The radial coordinate [90 - np.rad2deg(sat.alt)]. *)
Definition radius (sat : Sat) : float := (90 - rad2deg (sat_alt sat))%float.

(** One turn of the loop of [plot_polar_azel] per group. *)
Fixpoint polar_loop (colors : list Color) (ind_group : nat)
    (groups : list (list Sat)) : result (list draw) :=
  match groups with
  | [] => Ok []
  | sat_group :: groups' =>
      let visible_sats := visible sat_group in
      let* color := getitem colors (Z.of_nat ind_group) in
      let scatter :=
        Scatter (map sat_az visible_sats) (map radius visible_sats)
                color None in
      let annotations :=
        map (fun visible_sat =>
               Annotate (sat_name visible_sat) (sat_az visible_sat)
                        (radius visible_sat) color) visible_sats in
      let* more := polar_loop colors (S ind_group) groups' in
      Ok (scatter :: annotations ++ more)
  end.

Definition plot_polar_azel (sat_groups : PyDict.t (list Sat))
  : result (list draw) :=
  let colors := group_colors (PyDict.len sat_groups) in
  let* body := polar_loop colors 0 (PyDict.values sat_groups) in
  Ok ([SetThetaZeroLocation "N"; SetThetaDirection (-1)]
        ++ body
        ++ [SetYTicks [0; 10; 20; 30; 40; 50; 60; 70; 80; 90]%Z;
            SetYTickLabels ["90"; ""; ""; "60"; ""; ""; "30"; ""; ""; ""];
            Grid true]).

(** [m(lons, lats)] on two lists. *)
Definition project (lons lats : list float) : list float * list float :=
  let xy := zip_with mill lons lats in
  (map fst xy, map snd xy).

(** One turn of the loop of [plot_ground_tracks] per item. *)
Fixpoint ground_loop (colors : list Color) (ind_group : nat)
    (items : list (string * list Sat)) : result (list draw) :=
  match items with
  | [] => Ok []
  | (sat_group_key, sat_group) :: items' =>
      let lats := map (fun sat => rad2deg (sat_sublat sat)) sat_group in
      let lons := map (fun sat => rad2deg (sat_sublong sat)) sat_group in
      let '(x, y) := project lons lats in
      let* color := getitem colors (Z.of_nat ind_group) in
      let* more := ground_loop colors (S ind_group) items' in
      Ok (Scatter x y color (Some sat_group_key) :: more)
  end.

Definition plot_ground_tracks (m : utils_module) (w : world)
    (sat_groups : PyDict.t (list Sat)) (obs_time : option datetime)
  : result (list draw) :=
  let obs_time := bind_obs_time (plot_ground_tracks_default m) w obs_time in
  let colors := group_colors (PyDict.len sat_groups) in
  let* body := ground_loop colors 0 (PyDict.items sat_groups) in
  Ok ([DrawCoastlines; BlueMarble; Nightshade obs_time]
        ++ body ++ [SupTitle obs_time; Legend]).

(** What a list of calls plots: the scatter calls, in order. *)
Definition scatters (calls : list draw)
  : list (list float * list float * Color * option string) :=
  omap (fun c => match c with
                 | Scatter xs ys color label => Some (xs, ys, color, label)
                 | _ => None
                 end) calls.

Definition scatter_colors (calls : list draw) : list Color :=
  map (fun s => snd (fst s)) (scatters calls).

(** The annotation calls, in order. *)
Definition annotations (calls : list draw)
  : list (string * float * float * Color) :=
  omap (fun c => match c with
                 | Annotate text x y color => Some (text, x, y, color)
                 | _ => None
                 end) calls.

End Renderer.

Arguments Scatter {Color} xs ys color label.
Arguments Annotate {Color} text x y color.

(** ** Reference functions for the loader

    What the index loop of [read_tle_files] is compared with. *)

(** The consecutive triplets of a list of lines; fewer than three lines
    left over are not a triplet. *)
Fixpoint triplets (lines : list string) : list (string * string * string) :=
  match lines with
  | l0 :: l1 :: l2 :: rest => (l0, l1, l2) :: triplets rest
  | _ => []
  end.

(** [ephem.readtle] on a triplet. *)
Definition readtle3 (readtle : string -> string -> string -> result Sat)
    (t : string * string * string) : result Sat :=
  readtle t.1.1 t.1.2 t.2.

(** One turn of the loop over [tle_files]: the key of the URL and the
    records read from it. *)
Definition fetch_group (urlopen_lines : string -> result (list string))
    (readtle : string -> string -> string -> result Sat)
    (tle_file : string) : result (string * list Sat) :=
  let* lines := urlopen_lines tle_file in
  let* sats := read_sats readtle lines in
  Ok (sat_group_name tle_file, sats).

(** Keys in order of first appearance. *)
Definition add_key (ks : list string) (k : string) : list string :=
  if bool_decide (k ∈ ks) then ks else ks ++ [k].

Definition first_keys (ks : list string) : list string :=
  foldl add_key [] ks.

(** Storing a list of items one after the other, as the loop does. *)
Definition store_all {V : Type} (d : PyDict.t V) (entries : list (string * V))
  : PyDict.t V :=
  foldl (fun d e => PyDict.setitem e.1 e.2 d) d entries.

(** ** Frame of the position computer *)

(** What a run of [compute] calls leaves untouched, and what it adds to
    the record of calls. *)
Definition frame (h h' : heap) (called : list ref) : Prop :=
  h_dicts h' = h_dicts h
  /\ h_lists h' = h_lists h
  /\ length (h_sats h') = length (h_sats h)
  /\ compute_calls h' = compute_calls h ++ called
  /\ forall r, r ∉ called -> h_sats h' !! r = h_sats h !! r.

(** ** Reference functions for the renderers *)

(** What [plot_polar_azel] draws for one group in one color: the scatter
    of its visible satellites and their annotations. *)
Definition polar_group_calls {Color : Type} (sat_group : list Sat)
    (color : Color) : list (draw Color) :=
  Scatter (map sat_az (visible sat_group)) (map radius (visible sat_group))
          color None
  :: map (fun sat => Annotate (sat_name sat) (sat_az sat) (radius sat) color)
         (visible sat_group).

(** The ground-track point of a satellite. *)
Definition ground_point (mill : float -> float -> float * float) (sat : Sat)
  : float * float :=
  mill (rad2deg (sat_sublong sat)) (rad2deg (sat_sublat sat)).

(** What [plot_ground_tracks] draws for one item in one color. *)
Definition ground_group_call {Color : Type}
    (mill : float -> float -> float * float)
    (item : string * list Sat) (color : Color) : draw Color :=
  Scatter (map (fun sat => (ground_point mill sat).1) item.2)
          (map (fun sat => (ground_point mill sat).2) item.2)
          color (Some item.1).

(** ** Sample inputs

    Stand-ins for the external calls and small inputs, used to run the
    definitions above. *)

(** A stand-in for [ephem.readtle] that keeps the three lines and rejects
    a first element line that does not start with [1]. *)
Definition toy_readtle (name line1 line2 : string) : result Sat :=
  if String.prefix "1" line1
  then Ok (mkSat name line1 line2 0 0 0 0)
  else Raise ValueError.

(** Two catalogs whose URLs share the file name [x.txt]. *)
Definition toy_urlopen (url : string) : result (list string) :=
  if String.eqb url "http://a/x.txt" then Ok ["A"; "1 a"; "2 a"]
  else if String.eqb url "http://b/x.txt" then Ok ["B"; "1 b"; "2 b"]
  else if String.eqb url "http://b/y.txt" then Ok ["C"; "1 c"; "2 c"]
  else Raise URLError.

Definition sat_A : Sat := mkSat "A" "1 a" "2 a" 0 0 0 0.
Definition sat_B : Sat := mkSat "B" "1 b" "2 b" 0 0 0 0.
Definition sat_C : Sat := mkSat "C" "1 c" "2 c" 0 0 0 0.

(** A stand-in for [Body.compute] that sets the four position fields. *)
Definition toy_compute (observer : Observer) (body : Sat) : result Sat :=
  Ok (mkSat (sat_name body) (sat_line1 body) (sat_line2 body)
            1%float 0.5%float 0.25%float 2%float).

Definition toy_observer : Observer :=
  mkObserver (CStr "-122.0838") (CStr "37.3860") 0.

(** A store with three bodies, the two lists [[0; 1]] and [[2]], and the
    dict [{X: list 0, Y: list 1}]. *)
Definition toy_heap : heap :=
  mkHeap [sat_A; sat_B; sat_C] [[0; 1]; [2]] [[("X", 0); ("Y", 1)]] [].

(** A colormap stand-in: the sample itself is the color. *)
Definition toy_colormap (x : float) : float := x.

(** A projection stand-in that keeps longitude and latitude. *)
Definition toy_mill (lon lat : float) : float * float := (lon, lat).

(** Bodies at the zenith, on the horizon (elevation exactly 0), and below
    the horizon. *)
Definition zenith_sat : Sat :=
  mkSat "ZENITH" "1 z" "2 z" 0 (NPY_PI / 2) 0 0.
Definition horizon_sat : Sat := mkSat "HORIZON" "1 h" "2 h" 1 0 0 0.

(** A body at the smallest elevation above 0 that binary64 has. *)
Definition lowest_sat : Sat := mkSat "LOWEST" "1 l" "2 l" 3 0x1p-1074 0 0.
Definition below_sat : Sat := mkSat "BELOW" "1 w" "2 w" 2 (-0.5) 0.5 1.

Definition toy_module : utils_module := import_utils (mkWorld 0) (mkWorld 0).

(** Two complete triplets followed by two lines the parser would reject. *)
Definition catalog8 : list string :=
  ["A"; "1 a"; "2 a"; "B"; "1 b"; "2 b"; "C"; "x"].

(** ** Location data (utils.py lines 33-46)

    [fetch_json] is [json.load(urlopen(url))] for a response that is a
    JSON object.  The location string of the log message is built with
    [data["city"]] and [data["region"]], so both keys are read. *)

Definition dict_getitem (data : gmap string json) (key : string)
  : result json :=
  match data !! key with
  | Some v => Ok v
  | None => Raise KeyError
  end.

Definition get_location_data
    (fetch_json : string -> result (gmap string json))
  : result (gmap string json) :=
  let* data := fetch_json "http://ipinfo.io/json" in
  let* city := dict_getitem data "city" in
  let* region := dict_getitem data "region" in
  Ok data.

(** ** Log level (satmap/__init__.py lines 39-67) *)

Module Logging.

Definition CRITICAL : Z := 50.
Definition ERROR : Z := 40.
Definition WARNING : Z := 30.
Definition INFO : Z := 20.
Definition DEBUG : Z := 10.

(** The keyword arguments of [logging.basicConfig]. *)
Record config : Type := mkConfig {
  level : Z;
  format : string;
  datefmt : string
}.

End Logging.

(** The level chosen by the chain of comparisons on
    [verbose_level - quiet_level]. *)
Definition log_level (verbose_level quiet_level : Z) : Z :=
  let combined_level := (verbose_level - quiet_level)%Z in
  if (combined_level <=? -3)%Z then (Logging.CRITICAL + 10)%Z
  else if ((-3 <? combined_level) && (combined_level <=? -2))%Z
  then Logging.CRITICAL
  else if ((-2 <? combined_level) && (combined_level <=? -1))%Z
  then Logging.ERROR
  else if ((-1 <? combined_level) && (combined_level <? 1))%Z
  then Logging.WARNING
  else if ((1 <=? combined_level) && (combined_level <? 2))%Z
  then Logging.INFO
  else Logging.DEBUG.

(** [set_log_level]: the configuration it passes to [basicConfig]. *)
Definition set_log_level (verbose_level quiet_level : Z) : Logging.config :=
  Logging.mkConfig (log_level verbose_level quiet_level)
    "%(asctime)s:%(levelname)s:%(module)s - %(message)s"
    "%Y-%m-%d %H:%M:%S".

(** ** Character predicates for group keys *)

Definition is_lower (a : ascii) : bool :=
  let n := nat_of_ascii a in (97 <=? n)%nat && (n <=? 122)%nat.

Fixpoint all_chars (P : ascii -> bool) (s : string) : bool :=
  match s with
  | EmptyString => true
  | String a s' => P a && all_chars P s'
  end.

(** A string of ASCII characters only (codes below 128). *)
Definition is_ascii (s : string) : bool :=
  all_chars (fun a => (nat_of_ascii a <? 128)%nat) s.

(** A string made of dots only (the empty string included). *)
Definition all_dots (s : string) : bool :=
  all_chars (fun a => Ascii.eqb a ".") s.

(** The upper-case form of one ASCII character, by its code. *)
Definition ascii_upper (a : ascii) : ascii :=
  if is_lower a then ascii_of_nat (nat_of_ascii a - 32) else a.

(** ** Reading a mapping out of the store *)

(** The bodies behind the references of one group. *)
Definition load_item (store : list Sat) (item : string * list ref)
  : result (string * list Sat) :=
  let* sats := mapM (deref store) item.2 in
  Ok (item.1, sats).

(** The mapping a dict reference stands for, with the bodies in place of
    their references: what a renderer reads through [sat_groups]. *)
Definition load_groups (h : heap) (sat_groups : ref)
  : result (PyDict.t (list Sat)) :=
  let* groups := group_refs h sat_groups in
  mapM (load_item (h_sats h)) groups.

(** [compute] applied to the records of one group, in order. *)
Definition compute_item (compute : Observer -> Sat -> result Sat)
    (observer : Observer) (item : string * list Sat)
  : result (string * list Sat) :=
  let* sats := mapM (compute observer) item.2 in
  Ok (item.1, sats).

(** [compute] applied to every record of a mapping of bodies, group by
    group, stopping at the first exception. *)
Definition compute_all (compute : Observer -> Sat -> result Sat)
    (observer : Observer) (d : PyDict.t (list Sat))
  : result (PyDict.t (list Sat)) :=
  mapM (compute_item compute observer) d.

(** A stand-in for [Body.compute] that raises on the body named [B]. *)
Definition picky_compute (observer : Observer) (body : Sat) : result Sat :=
  if String.eqb (sat_name body) "B" then Raise RuntimeError
  else toy_compute observer body.

(** The points of one scatter call, each with the color of the call. *)
Definition scatter_points {Color : Type}
    (s : list float * list float * Color * option string)
  : list (float * float * Color) :=
  zip_with (fun x y => (x, y, s.1.2)) s.1.1.1 s.1.1.2.

(** What the ground-track renderer reads of a mapping: the keys and, for
    each record, its sub-longitude and sub-latitude. *)
Definition ground_view (sat_groups : PyDict.t (list Sat))
  : list (string * list (float * float)) :=
  map (fun item : string * list Sat =>
         (item.1, map (fun sat => (sat_sublong sat, sat_sublat sat)) item.2))
      sat_groups.

(** * Properties *)

(** ** Strings and paths *)

Module PyStrFacts.
Import PyStr.

Lemma append_cons a s1 s2 : String a s1 +:+ s2 = String a (s1 +:+ s2).
Proof. reflexivity. Qed.

Lemma append_assoc s1 s2 s3 : (s1 +:+ s2) +:+ s3 = s1 +:+ (s2 +:+ s3).
Proof.
  induction s1 as [|a s1 IH]; [done|].
  rewrite !append_cons. by rewrite IH.
Qed.

Lemma length_append s1 s2 :
  String.length (s1 +:+ s2) = String.length s1 + String.length s2.
Proof.
  induction s1 as [|a s1 IH]; [done|].
  rewrite append_cons. simpl. by rewrite IH.
Qed.

Lemma rfind_from_app c s1 s2 i last :
  rfind_from c (s1 +:+ s2) i last
  = rfind_from c s2 (i + Z.of_nat (String.length s1))
               (rfind_from c s1 i last).
Proof.
  revert i last. induction s1 as [|a s1 IH]; intros i last; simpl.
  - f_equal. lia.
  - rewrite IH. f_equal. lia.
Qed.

Lemma slice_from_app s1 s2 :
  slice_from (String.length s1) (s1 +:+ s2) = s2.
Proof. induction s1 as [|a s1 IH]; simpl; [by destruct s2 | done]. Qed.

Lemma slice_to_app s1 s2 :
  slice_to (String.length s1) (s1 +:+ s2) = s1.
Proof. induction s1 as [|a s1 IH]; simpl; [done | by rewrite IH]. Qed.

(** Without the character, nothing is found. *)
Lemma rfind_from_absent c s i last :
  count c s = 0 -> rfind_from c s i last = last.
Proof.
  revert i last. induction s as [|a s IH]; intros i last; simpl; [done|].
  destruct (Ascii.eqb a c); [done|]. intros H. by apply IH.
Qed.

Lemma count_app c s1 s2 : count c (s1 +:+ s2) = count c s1 + count c s2.
Proof. induction s1 as [|a s1 IH]; simpl; [done | rewrite IH; lia]. Qed.

Lemma split_length c s : length (split c s) = S (count c s).
Proof.
  induction s as [|a s IH]; simpl; [done|].
  destruct (Ascii.eqb a c); simpl; [by rewrite IH|].
  destruct (split c s); simpl in *; congruence.
Qed.

Lemma split_absent c s : count c s = 0 -> split c s = [s].
Proof.
  induction s as [|a s IH]; simpl; [done|].
  destruct (Ascii.eqb a c); [done|]. intros H. by rewrite IH.
Qed.

Lemma split_once c s :
  count c s = 1 ->
  exists s1 s2, s = s1 +:+ String c s2 /\ count c s1 = 0 /\ count c s2 = 0
                /\ split c s = [s1; s2].
Proof.
  induction s as [|a s IH]; simpl; [done|].
  destruct (Ascii.eqb_spec a c) as [->|Hne]; intros H.
  - exists EmptyString, s. simpl. rewrite split_absent by lia.
    repeat split; lia.
  - destruct (IH H) as (s1 & s2 & -> & H1 & H2 & Hs).
    exists (String a s1), s2. simpl. rewrite Hs.
    destruct (Ascii.eqb_spec a c); [done|]. by repeat split.
Qed.

End PyStrFacts.

Module OsPathFacts.
Import PyStr OsPath.

(** The base name of a path that ends in a slash-free component. *)
Lemma basename_app prefix file :
  count sep file = 0 ->
  basename (prefix +:+ String sep file) = file.
Proof.
  intros Hfile. unfold basename, rfind.
  rewrite PyStrFacts.rfind_from_app. cbn [rfind_from].
  rewrite Ascii.eqb_refl, PyStrFacts.rfind_from_absent by done.
  replace (Z.to_nat (0 + Z.of_nat (String.length prefix) + 1))
    with (String.length (prefix +:+ String sep EmptyString)).
  - replace (prefix +:+ String sep file)
      with ((prefix +:+ String sep EmptyString) +:+ file).
    + apply PyStrFacts.slice_from_app.
    + by rewrite PyStrFacts.append_assoc.
  - rewrite PyStrFacts.length_append. simpl. lia.
Qed.

End OsPathFacts.

(** ** Location resolver *)

(** C10.  When [loc] is a string with exactly one comma,
    [get_current_latlon] returns the text before the comma and the text
    after it, both still strings; with any other number of commas the
    unpacking raises [ValueError]. *)
Theorem get_current_latlon_one_comma (data : gmap string json) (loc : string) :
  data !! "loc" = Some (JStr loc) ->
  (PyStr.count "," loc = 1 ->
   exists lat lon : string,
     loc = lat +:+ "," +:+ lon
     /\ PyStr.count "," lat = 0 /\ PyStr.count "," lon = 0
     /\ get_current_latlon data = Ok (lat, lon))
  /\ (PyStr.count "," loc <> 1 ->
      get_current_latlon data = Raise ValueError).
Proof.
  intros Hloc. unfold get_current_latlon. rewrite Hloc. split.
  - intros Hone.
    destruct (PyStrFacts.split_once _ _ Hone) as (lat & lon & -> & H1 & H2 & Hs).
    exists lat, lon. by rewrite Hs.
  - intros Hne. pose proof (PyStrFacts.split_length "," loc) as Hlen.
    destruct (PyStr.split "," loc) as [|a [|b [|c l]]]; simpl in Hlen;
      try done.
    exfalso. apply Hne. lia.
Qed.

Lemma get_current_latlon_one_comma_witness :
  ({[ "loc" := JStr "37.3860,-122.0838" ]} : gmap string json) !! "loc"
    = Some (JStr "37.3860,-122.0838")
  /\ PyStr.count "," "37.3860,-122.0838" = 1
  /\ get_current_latlon {[ "loc" := JStr "37.3860,-122.0838" ]}
     = Ok ("37.3860", "-122.0838")
  /\ PyStr.count "," "37.3860" <> 1
  /\ get_current_latlon {[ "loc" := JStr "37.3860" ]} = Raise ValueError
  /\ get_current_latlon {[ "loc" := JStr "1,2,3" ]} = Raise ValueError.
Proof.
  pose proof (get_current_latlon_one_comma
                {[ "loc" := JStr "37.3860,-122.0838" ]}
                "37.3860,-122.0838" eq_refl) as [Hone _].
  pose proof (get_current_latlon_one_comma
                {[ "loc" := JStr "37.3860" ]} "37.3860" eq_refl) as [_ Hnone].
  pose proof (get_current_latlon_one_comma
                {[ "loc" := JStr "1,2,3" ]} "1,2,3" eq_refl) as [_ Hmany].
  split; [reflexivity|]. split; [reflexivity|]. split; [reflexivity|].
  split; [simpl; lia|]. split; [apply Hnone; simpl; lia|].
  apply Hmany. simpl. lia.
Defined.

(** ** Orbital element loader *)

Lemma getitem_nat {A : Type} (l : list A) (i : nat) (x : A) :
  l !! i = Some x -> getitem l (Z.of_nat i) = Ok x.
Proof.
  intros H. unfold getitem.
  destruct (Z.ltb_spec (Z.of_nat i) 0) as [|_]; [lia|].
  destruct (Z.ltb_spec (Z.of_nat i) 0) as [|_]; [lia|].
  by rewrite Nat2Z.id, H.
Qed.

Lemma triplets_length (lines : list string) :
  length (triplets lines) = length lines / 3.
Proof.
  induction lines as [lines IH] using (induction_ltof1 _ (@length string)).
  unfold ltof in IH.
  destruct lines as [|l0 [|l1 [|l2 rest]]]; try reflexivity.
  cbn [triplets length]. rewrite IH by (simpl; lia).
  change (S (S (S (length rest)))) with (3 + length rest).
  replace (3 + length rest) with (length rest + 1 * 3) by lia.
  rewrite Nat.div_add by lia. lia.
Qed.

Lemma triplets_lookup (lines : list string) (i : nat) t :
  triplets lines !! i = Some t <->
  lines !! (3 * i) = Some t.1.1 /\ lines !! (3 * i + 1) = Some t.1.2
  /\ lines !! (3 * i + 2) = Some t.2.
Proof.
  revert lines. induction i as [|i IH]; intros lines.
  - destruct lines as [|l0 [|l1 [|l2 rest]]], t as [[a b] c]; simpl;
      try (split; [done | by intros (? & ? & ?)]).
    split; [by intros [= -> -> ->] | by intros ([= ->] & [= ->] & [= ->])].
  - destruct lines as [|l0 [|l1 [|l2 rest]]].
    1-3: split; [done | intros (H0 & H1 & H2)].
    1-3: replace (3 * S i + 2) with (S (S (S (3 * i + 2)))) in H2 by lia;
         by simpl in H2.
    cbn [triplets]. rewrite lookup_cons. rewrite IH.
    replace (3 * S i) with (S (S (S (3 * i)))) by lia.
    replace (S (S (S (3 * i))) + 1) with (S (S (S (3 * i + 1)))) by lia.
    replace (S (S (S (3 * i))) + 2) with (S (S (S (3 * i + 2)))) by lia.
    done.
Qed.

Section LoaderFacts.

Variable urlopen_lines : string -> result (list string).
Variable readtle : string -> string -> string -> result Sat.

(** The index loop parses the complete triplets of what is left and
    skips a trailing partial one. *)
Lemma read_sats_loop_triplets (rest done_ : list string) (sats : list Sat) :
  (exists k, length done_ = 3 * k) ->
  read_sats_loop readtle (done_ ++ rest) rest (Z.of_nat (length done_)) sats
  = let* new := mapM (readtle3 readtle) (triplets rest) in Ok (sats ++ new).
Proof.
  revert done_ sats.
  induction rest as [rest IH] using (induction_ltof1 _ (@length string)).
  unfold ltof in IH. intros done_ sats [k Hk].
  assert (H0 : (Z.of_nat (length done_) mod 3 = 0)%Z).
  { rewrite Hk, Nat2Z.inj_mul, Z.mul_comm. apply Z.mod_mul. lia. }
  assert (H1 : ((Z.of_nat (length done_) + 1) mod 3 = 1)%Z).
  { rewrite Hk, Nat2Z.inj_mul, Z.add_comm, Z.mul_comm, Z.mod_add by lia.
    done. }
  assert (H2 : ((Z.of_nat (length done_) + 1 + 1) mod 3 = 2)%Z).
  { rewrite Hk, Nat2Z.inj_mul, <- Z.add_assoc, Z.add_comm, Z.mul_comm,
      Z.mod_add by lia. done. }
  destruct rest as [|l0 [|l1 [|l2 rest]]]; cbn [read_sats_loop triplets].
  - simpl. by rewrite app_nil_r.
  - rewrite H0. simpl. by rewrite app_nil_r.
  - rewrite H0, H1. simpl. by rewrite app_nil_r.
  - rewrite H0, H1, H2. cbn [Z.eqb Pos.eqb].
    replace (Z.of_nat (length done_) + 1 + 1 - 2)%Z
      with (Z.of_nat (length done_)) by lia.
    replace (Z.of_nat (length done_) + 1 + 1 - 1)%Z
      with (Z.of_nat (S (length done_))) by lia.
    rewrite (getitem_nat _ _ l0)
      by (by rewrite lookup_app_r, Nat.sub_diag by lia).
    rewrite (getitem_nat _ _ l1).
    2:{ rewrite lookup_app_r by lia.
        by replace (S (length done_) - length done_) with 1 by lia. }
    cbn [bind mapM]. unfold readtle3 at 1. cbn [fst snd].
    destruct (readtle l0 l1 l2) as [sat|e]; cbn [bind]; [|done].
    replace (Z.of_nat (length done_) + 1 + 1 + 1)%Z
      with (Z.of_nat (length (done_ ++ [l0; l1; l2]))).
    2:{ rewrite length_app. simpl. lia. }
    replace (done_ ++ l0 :: l1 :: l2 :: rest)
      with ((done_ ++ [l0; l1; l2]) ++ rest)
      by (by rewrite <- app_assoc).
    rewrite IH.
    + destruct (mapM (readtle3 readtle) (triplets rest)); cbn [bind]; [|done].
      by rewrite <- app_assoc.
    + simpl. lia.
    + exists (S k). rewrite length_app. simpl. lia.
Qed.

Lemma read_sats_triplets (lines : list string) :
  read_sats readtle lines = mapM (readtle3 readtle) (triplets lines).
Proof.
  unfold read_sats.
  pose proof (read_sats_loop_triplets lines [] []
                (ex_intro _ 0 eq_refl)) as H.
  cbn [app length] in H. change (Z.of_nat 0) with 0%Z in H. rewrite H.
  by destruct (mapM (readtle3 readtle) (triplets lines)).
Qed.

End LoaderFacts.

Lemma mapM_ok {A B : Type} (f : A -> result B) (l : list A) :
  (forall i x, l !! i = Some x -> is_ok (f x)) ->
  exists ys, mapM f l = Ok ys.
Proof.
  induction l as [|x l IH]; intros Hok; [by exists []|]. simpl.
  pose proof (Hok 0 x eq_refl) as Hx.
  destruct (f x) as [y|e]; [|done].
  destruct IH as [ys ->]; [intros i x' Hi; by apply (Hok (S i))|].
  by exists (y :: ys).
Qed.

Lemma mapM_spec {A B : Type} (f : A -> result B) (l : list A) ys :
  mapM f l = Ok ys ->
  length ys = length l
  /\ forall i x, l !! i = Some x -> exists y, f x = Ok y /\ ys !! i = Some y.
Proof.
  revert ys. induction l as [|x l IH]; intros ys; simpl.
  - intros [= <-]. by split.
  - destruct (f x) as [y|e] eqn:Hx; [|done]. simpl.
    destruct (mapM f l) as [ys'|e]; [|done]. simpl. intros [= <-].
    destruct (IH ys' eq_refl) as [Hlen Hnth]. split; [simpl; by rewrite Hlen|].
    intros [|i] x'; simpl.
    + intros [= <-]. by exists y.
    + apply Hnth.
Qed.

Lemma triplets_take (lines : list string) :
  triplets (take (3 * (length lines / 3)) lines) = triplets lines.
Proof.
  induction lines as [lines IH] using (induction_ltof1 _ (@length string)).
  unfold ltof in IH.
  destruct lines as [|l0 [|l1 [|l2 rest]]]; try reflexivity.
  change (length (l0 :: l1 :: l2 :: rest)) with (3 + length rest).
  replace (3 + length rest) with (length rest + 1 * 3) by lia.
  rewrite Nat.div_add by lia.
  replace (3 * (length rest / 3 + 1)) with (S (S (S (3 * (length rest / 3)))))
    by lia.
  cbn [take triplets]. rewrite IH by (simpl; lia). done.
Qed.

(** C1.  A response of [n] lines gives [n / 3] records, in file order, the
    [i]-th parsed from lines [3i], [3i+1], [3i+2].  Only complete triplets
    reach the parser: the one or two lines past the last complete triplet
    are not read, so they raise nothing, and the result is that of the
    response with them cut off. *)
Theorem read_sats_floor_third
    (readtle : string -> string -> string -> result Sat)
    (lines : list string) :
  (forall i l0 l1 l2,
     lines !! (3 * i) = Some l0 -> lines !! (3 * i + 1) = Some l1 ->
     lines !! (3 * i + 2) = Some l2 -> is_ok (readtle l0 l1 l2)) ->
  exists sats,
    read_sats readtle lines = Ok sats
    /\ length sats = length lines / 3
    /\ (forall i, i < length lines / 3 ->
        exists l0 l1 l2 sat,
          lines !! (3 * i) = Some l0 /\ lines !! (3 * i + 1) = Some l1
          /\ lines !! (3 * i + 2) = Some l2
          /\ readtle l0 l1 l2 = Ok sat /\ sats !! i = Some sat)
    /\ read_sats readtle (take (3 * (length lines / 3)) lines) = Ok sats
    /\ (forall urlopen_lines tle_file,
          urlopen_lines tle_file = Ok lines ->
          read_tle_files urlopen_lines readtle [tle_file]
          = Ok [(sat_group_name tle_file, sats)]).
Proof.
  intros Hparse.
  destruct (mapM_ok (readtle3 readtle) (triplets lines)) as [sats Hsats].
  { intros i [[l0 l1] l2] Hi. apply triplets_lookup in Hi as (H0 & H1 & H2).
    by apply (Hparse i). }
  exists sats.
  assert (Hread : read_sats readtle lines = Ok sats)
    by (by rewrite read_sats_triplets).
  destruct (mapM_spec _ _ _ Hsats) as [Hlen Hnth].
  rewrite triplets_length in Hlen.
  split; [done|]. split; [done|]. split; [|split].
  - intros i Hi.
    destruct (lookup_lt_is_Some_2 (triplets lines) i) as [[[l0 l1] l2] Ht];
      [by rewrite triplets_length|].
    destruct (Hnth i _ Ht) as (sat & Hsat & Hi').
    apply triplets_lookup in Ht as (H0 & H1 & H2).
    by exists l0, l1, l2, sat.
  - by rewrite read_sats_triplets, triplets_take.
  - intros urlopen_lines tle_file Hfetch.
    unfold read_tle_files. cbn [read_tle_loop]. rewrite Hfetch. cbn [bind].
    by rewrite Hread.
Qed.

Lemma read_sats_floor_third_witness :
  exists sats,
    read_sats toy_readtle catalog8 = Ok sats
    /\ length sats = length catalog8 / 3
    /\ (forall i, i < length catalog8 / 3 ->
        exists l0 l1 l2 sat,
          catalog8 !! (3 * i) = Some l0 /\ catalog8 !! (3 * i + 1) = Some l1
          /\ catalog8 !! (3 * i + 2) = Some l2
          /\ toy_readtle l0 l1 l2 = Ok sat /\ sats !! i = Some sat)
    /\ read_sats toy_readtle (take (3 * (length catalog8 / 3)) catalog8)
       = Ok sats
    /\ (forall urlopen_lines tle_file,
          urlopen_lines tle_file = Ok catalog8 ->
          read_tle_files urlopen_lines toy_readtle [tle_file]
          = Ok [(sat_group_name tle_file, sats)]).
Proof.
  apply (read_sats_floor_third toy_readtle catalog8).
  intros [|[|i]] l0 l1 l2.
  - intros [= <-] [= <-] [= <-]. exact I.
  - intros [= <-] [= <-] [= <-]. exact I.
  - intros _ _ H. exfalso.
    replace (3 * S (S i) + 2) with (8 + 3 * i) in H by lia. by simpl in H.
Defined.

(** *** The dict built by the loop over the URLs *)

Module PyDictFacts.
Import PyDict.

Lemma keys_setitem {V : Type} (k : string) (v : V) (d : t V) :
  keys (setitem k v d) = add_key (keys d) k.
Proof.
  unfold add_key, keys. induction d as [|[k' v'] d IH]; simpl; [done|].
  destruct (String.eqb_spec k' k) as [->|Hne]; simpl.
  - rewrite bool_decide_eq_true_2; [done | by left].
  - rewrite IH. destruct (decide (k ∈ map fst d)) as [Hin|Hnin].
    + rewrite !bool_decide_eq_true_2; [done | by right | done].
    + rewrite !bool_decide_eq_false_2; [done | | done].
      by intros [->|?]%elem_of_cons.
Qed.

Lemma get_setitem_eq {V : Type} (k : string) (v : V) (d : t V) :
  get k (setitem k v d) = Some v.
Proof.
  induction d as [|[k' v'] d IH]; simpl; [by rewrite String.eqb_refl|].
  destruct (String.eqb k' k) eqn:Hk; simpl; by rewrite Hk.
Qed.

Lemma get_setitem_ne {V : Type} (k k' : string) (v : V) (d : t V) :
  k <> k' -> get k' (setitem k v d) = get k' d.
Proof.
  intros Hne. induction d as [|[k0 v0] d IH]; simpl.
  - by destruct (String.eqb_spec k k').
  - destruct (String.eqb_spec k0 k) as [->|]; simpl.
    + by destruct (String.eqb_spec k k').
    + by rewrite IH.
Qed.

(** A new key goes last. *)
Lemma setitem_fresh {V : Type} (k : string) (v : V) (d : t V) :
  k ∉ keys d -> setitem k v d = d ++ [(k, v)].
Proof.
  unfold keys. induction d as [|[k' v'] d IH]; simpl; [done|].
  intros Hnin. destruct (String.eqb_spec k' k) as [->|_].
  - exfalso. apply Hnin. by left.
  - rewrite IH; [done|]. intros ?. apply Hnin. by right.
Qed.

Lemma keys_store_all {V : Type} (d : t V) (entries : list (string * V)) :
  keys (store_all d entries) = foldl add_key (keys d) (map fst entries).
Proof.
  unfold store_all. revert d.
  induction entries as [|[k v] entries IH]; intros d; [done|].
  cbn [foldl map fst snd]. by rewrite IH, keys_setitem.
Qed.

(** Items with pairwise distinct new keys are appended as they are. *)
Lemma store_all_fresh {V : Type} (d : t V) (entries : list (string * V)) :
  NoDup (keys d ++ map fst entries) -> store_all d entries = d ++ entries.
Proof.
  unfold store_all. revert d.
  induction entries as [|[k v] entries IH]; intros d Hnd.
  - by rewrite app_nil_r.
  - cbn [foldl map fst snd] in *.
    apply NoDup_app in Hnd as (Hd & Hdis & Hne).
    apply NoDup_cons in Hne as [Hk Hne].
    rewrite setitem_fresh by (intros ?; eapply Hdis; [done | by left]).
    rewrite IH, <- app_assoc; [done|].
    unfold keys. rewrite map_app. simpl.
    apply NoDup_app. split; [|split].
    + apply NoDup_app. split; [done|]. split; [|apply NoDup_singleton].
      intros x Hx ->%list_elem_of_singleton.
      eapply Hdis; [done | by left].
    + intros x [Hx| ->%list_elem_of_singleton]%elem_of_app Hin; [|done].
      eapply Hdis; [done | by right].
    + done.
Qed.

(** The value under a key is the one stored last. *)
Lemma get_store_all {V : Type} (d : t V) (entries : list (string * V)) k :
  get k (store_all d entries)
  = match get k (rev entries) with
    | Some v => Some v
    | None => get k d
    end.
Proof.
  revert d. induction entries as [|[k0 v0] entries IH] using rev_ind;
    intros d; [done|].
  unfold store_all in *. rewrite foldl_app, rev_app_distr. simpl.
  destruct (String.eqb_spec k0 k) as [->|Hne].
  - apply get_setitem_eq.
  - rewrite get_setitem_ne by done. apply IH.
Qed.

End PyDictFacts.

Lemma add_key_elem (ks : list string) (k x : string) :
  x ∈ add_key ks k <-> x ∈ ks \/ x = k.
Proof.
  unfold add_key. case_bool_decide as Hk.
  - split; [by left | by intros [?| ->]].
  - rewrite elem_of_app, list_elem_of_singleton. done.
Qed.

Lemma add_key_NoDup (ks : list string) (k : string) :
  NoDup ks -> NoDup (add_key ks k).
Proof.
  intros Hnd. unfold add_key. case_bool_decide as Hk; [done|].
  apply NoDup_app. split; [done|]. split; [|apply NoDup_singleton].
  by intros x Hx ->%list_elem_of_singleton.
Qed.

Lemma foldl_add_key_spec (ks0 ks : list string) :
  NoDup ks0 ->
  NoDup (foldl add_key ks0 ks)
  /\ forall x, x ∈ foldl add_key ks0 ks <-> x ∈ ks0 \/ x ∈ ks.
Proof.
  revert ks0. induction ks as [|k ks IH]; intros ks0 Hnd; simpl.
  - split; [done|]. intros x. rewrite elem_of_nil. tauto.
  - destruct (IH (add_key ks0 k) (add_key_NoDup _ _ Hnd)) as [H1 H2].
    split; [done|]. intros x. rewrite H2, add_key_elem, elem_of_cons. tauto.
Qed.

Section LoaderEntries.

Variable urlopen_lines : string -> result (list string).
Variable readtle : string -> string -> string -> result Sat.

(** The loop stores, in order, what each URL gives; the first URL that
    fails ends it with its exception. *)
Lemma read_tle_loop_store (tle_files : list string) d0 :
  read_tle_loop urlopen_lines readtle tle_files d0
  = let* entries := mapM (fetch_group urlopen_lines readtle) tle_files in
    Ok (store_all d0 entries).
Proof.
  revert d0. induction tle_files as [|url urls IH]; intros d0; [done|].
  cbn [read_tle_loop mapM]. unfold fetch_group at 1.
  destruct (urlopen_lines url) as [lines|e]; cbn [bind]; [|done].
  destruct (read_sats readtle lines) as [sats|e]; cbn [bind]; [|done].
  rewrite IH.
  by destruct (mapM (fetch_group urlopen_lines readtle) urls).
Qed.

Lemma fetch_group_key url e :
  fetch_group urlopen_lines readtle url = Ok e -> e.1 = sat_group_name url.
Proof.
  unfold fetch_group.
  destruct (urlopen_lines url) as [lines|?]; cbn [bind]; [|done].
  destruct (read_sats readtle lines) as [sats|?]; cbn [bind]; [|done].
  by intros [= <-].
Qed.

Lemma mapM_fetch_keys urls entries :
  mapM (fetch_group urlopen_lines readtle) urls = Ok entries ->
  map fst entries = map sat_group_name urls.
Proof.
  revert entries. induction urls as [|url urls IH]; intros entries; simpl.
  - by intros [= <-].
  - destruct (fetch_group urlopen_lines readtle url) as [e|?] eqn:He;
      cbn [bind]; [|done].
    destruct (mapM (fetch_group urlopen_lines readtle) urls)
      as [es|?]; cbn [bind]; [|done].
    intros [= <-]. simpl. by rewrite (IH es), (fetch_group_key url e).
Qed.

End LoaderEntries.

(** C6, as the code has it.  For ASCII URLs, when every URL is fetched
    and parsed, [read_tle_files] returns a dict whose keys are the
    upper-cased file stems of the URLs, each once, in order of first
    appearance, the value under a key being the records of the last URL
    with that key.  When the stems are pairwise distinct this is one entry
    per URL, in the order of the URLs. *)
Theorem read_tle_files_entries
    (urlopen_lines : string -> result (list string))
    (readtle : string -> string -> string -> result Sat)
    (tle_files : list string) (entries : list (string * list Sat)) :
  forallb is_ascii tle_files = true ->
  mapM (fetch_group urlopen_lines readtle) tle_files = Ok entries ->
  exists d,
    read_tle_files urlopen_lines readtle tle_files = Ok d
    /\ PyDict.keys d = first_keys (map sat_group_name tle_files)
    /\ NoDup (PyDict.keys d)
    /\ (forall k, k ∈ PyDict.keys d <-> k ∈ map sat_group_name tle_files)
    /\ (forall k, PyDict.get k d = PyDict.get k (rev entries))
    /\ (NoDup (map sat_group_name tle_files) ->
        d = entries
        /\ PyDict.len d = length tle_files
        /\ PyDict.keys d = map sat_group_name tle_files).
Proof.
  intros _ Hall. exists (store_all [] entries).
  pose proof (mapM_fetch_keys _ _ _ _ Hall) as Hkeys.
  assert (Hk : PyDict.keys (store_all [] entries)
               = first_keys (map sat_group_name tle_files)).
  { rewrite PyDictFacts.keys_store_all, Hkeys. done. }
  destruct (foldl_add_key_spec [] (map sat_group_name tle_files))
    as [Hnd Hin]; [apply NoDup_nil_2|].
  split; [|split; [|split; [|split; [|split]]]].
  - unfold read_tle_files. by rewrite read_tle_loop_store, Hall.
  - done.
  - by rewrite Hk.
  - intros k. rewrite Hk. unfold first_keys. rewrite Hin, elem_of_nil. tauto.
  - intros k. rewrite PyDictFacts.get_store_all.
    by destruct (PyDict.get k (rev entries)).
  - intros Hdistinct.
    assert (Heq : store_all [] entries = entries).
    { rewrite PyDictFacts.store_all_fresh; [done|]. simpl. by rewrite Hkeys. }
    rewrite Heq. split; [done|]. unfold PyDict.len, PyDict.keys.
    split; [|done].
    by rewrite <- (length_map fst), Hkeys, length_map.
Qed.

Lemma read_tle_files_entries_witness :
  forallb is_ascii ["http://a/x.txt"; "http://b/y.txt"] = true
  /\ exists d,
       read_tle_files toy_urlopen toy_readtle
         ["http://a/x.txt"; "http://b/y.txt"] = Ok d
       /\ d = [("X", [sat_A]); ("Y", [sat_C])]
       /\ PyDict.len d = 2.
Proof.
  split; [reflexivity|].
  destruct (read_tle_files_entries toy_urlopen toy_readtle
              ["http://a/x.txt"; "http://b/y.txt"]
              [("X", [sat_A]); ("Y", [sat_C])] eq_refl eq_refl)
    as (d & Hd & _ & _ & _ & _ & Hdistinct).
  destruct Hdistinct as (Heq & Hlen & _).
  { change (NoDup ["X"; "Y"]). apply NoDup_cons.
    split; [by intros ?%list_elem_of_singleton | apply NoDup_singleton]. }
  exists d. by repeat split.
Defined.

(** C6 as stated fails when two URLs share a file stem: the two ASCII
    URLs [http://a/x.txt] and [http://b/x.txt] give a dict with the single
    entry [X], holding the records of the second. *)
Lemma read_tle_files_shared_stem :
  forallb is_ascii ["http://a/x.txt"; "http://b/x.txt"] = true
  /\ read_tle_files toy_urlopen toy_readtle
       ["http://a/x.txt"; "http://b/x.txt"]
     = Ok [("X", [sat_B])]
  /\ PyDict.len [("X", [sat_B])] = 1
  /\ length ["http://a/x.txt"; "http://b/x.txt"] = 2.
Proof. by vm_compute. Qed.

(** ** Position computer *)

Section ComputerFacts.

Variable compute : Observer -> Sat -> result Sat.
Variable observer : Observer.

Lemma frame_refl h : frame h h [].
Proof. unfold frame. by rewrite app_nil_r. Qed.

Lemma frame_trans h1 h2 h3 c1 c2 :
  frame h1 h2 c1 -> frame h2 h3 c2 -> frame h1 h3 (c1 ++ c2).
Proof.
  intros (Hd1 & Hl1 & Hn1 & Hc1 & Hs1) (Hd2 & Hl2 & Hn2 & Hc2 & Hs2).
  repeat split; try congruence.
  - by rewrite Hc2, Hc1, app_assoc.
  - intros r Hr. rewrite Hs2, Hs1; [done | |];
      intros ?; apply Hr, elem_of_app; auto.
Qed.

Lemma sat_compute_frame sat h h' :
  sat_compute compute observer sat h = Ok h' ->
  frame h h' [sat]
  /\ exists body body',
       h_sats h !! sat = Some body /\ compute observer body = Ok body'
       /\ h_sats h' !! sat = Some body'.
Proof.
  unfold sat_compute, deref.
  destruct (h_sats h !! sat) as [body|] eqn:Hbody; cbn [bind]; [|done].
  destruct (compute observer body) as [body'|] eqn:Hc; cbn [bind]; [|done].
  intros [= <-]. split.
  - repeat split; simpl; [by rewrite length_insert|].
    intros r Hr. rewrite list_lookup_insert_ne; [done|].
    intros ->. apply Hr. by left.
  - exists body, body'. repeat split; [done..|]. simpl.
    apply list_lookup_insert_eq. by eapply lookup_lt_Some.
Qed.


Lemma compute_group_frame sat_group h h' :
  compute_group compute observer sat_group h = Ok h' ->
  frame h h' sat_group.
Proof.
  revert h. induction sat_group as [|sat sat_group IH]; intros h; simpl.
  - intros [= <-]. apply frame_refl.
  - destruct (sat_compute compute observer sat h) as [h1|] eqn:H1;
      cbn [bind]; [|done].
    intros H2. apply sat_compute_frame in H1 as [H1 _].
    apply (frame_trans _ _ _ [sat] sat_group H1 (IH _ H2)).
Qed.



End ComputerFacts.

Section ComputeGroupsFacts.

Variable compute : Observer -> Sat -> result Sat.
Variable observer : Observer.

Lemma compute_groups_frame values h h' groups :
  mapM (deref (h_lists h)) values = Ok groups ->
  compute_groups compute observer values h = Ok h' ->
  frame h h' (concat groups).
Proof.
  revert h groups. induction values as [|l values IH]; intros h groups; simpl.
  - intros [= <-] [= <-]. apply frame_refl.
  - destruct (deref (h_lists h) l) as [group|] eqn:Hl; cbn [bind]; [|done].
    destruct (mapM (deref (h_lists h)) values) as [groups'|] eqn:Hv;
      cbn [bind]; [|done].
    intros [= <-].
    destruct (compute_group compute observer group h) as [h1|] eqn:H1;
      cbn [bind]; [|done].
    intros H2. apply compute_group_frame in H1.
    simpl. apply (frame_trans _ _ _ _ _ H1). apply IH; [|done].
    destruct H1 as (_ & -> & _). done.
Qed.



(** The lists of references behind the values of a dict. *)
Lemma group_refs_values (lists : list (list ref)) (d : PyDict.t ref) groups :
  mapM (fun item : string * ref =>
          let* group := deref lists item.2 in Ok (item.1, group)) d
  = Ok groups ->
  mapM (deref lists) (PyDict.values d) = Ok (PyDict.values groups)
  /\ PyDict.keys groups = PyDict.keys d.
Proof.
  revert groups. induction d as [|[k l] d IH]; intros groups; simpl.
  - by intros [= <-].
  - destruct (deref lists l) as [group|]; cbn [bind]; [|done].
    destruct (mapM _ d) as [groups'|]; cbn [bind]; [|done].
    intros [= <-]. destruct (IH groups' eq_refl) as [-> Hk].
    simpl. split; [done|]. unfold PyDict.keys in *. by rewrite Hk.
Qed.

End ComputeGroupsFacts.



(** ** Renderers *)

Lemma linspace01_length (num : nat) : length (linspace01 num) = num.
Proof.
  destruct num as [|[|div]]; [done..|].
  unfold linspace01. rewrite length_app, length_map, length_seq. simpl. lia.
Qed.

Section RendererFacts.

Variable Color : Type.
Variable nipy_spectral : float -> Color.
Variable mill : float -> float -> float * float.

Lemma group_colors_length (n : nat) :
  length (group_colors Color nipy_spectral n) = n.
Proof. unfold group_colors. by rewrite length_map, linspace01_length. Qed.

(** The loop that collects the visible satellites is a filter. *)
Lemma visible_loop_filter (sat_group visible_sats : list Sat) :
  visible_loop sat_group visible_sats
  = visible_sats
      ++ List.filter (fun sat => (0 <? sat_alt sat)%float) sat_group.
Proof.
  revert visible_sats.
  induction sat_group as [|sat sat_group IH]; intros visible_sats; simpl.
  - by rewrite app_nil_r.
  - destruct (0 <? sat_alt sat)%float; rewrite IH; [|done].
    by rewrite <- app_assoc.
Qed.

Lemma visible_filter (sat_group : list Sat) :
  visible sat_group
  = List.filter (fun sat => (0 <? sat_alt sat)%float) sat_group.
Proof. unfold visible. by rewrite visible_loop_filter. Qed.

(** With a color for every index it reaches, the polar loop draws each
    group in the color at its index. *)
Lemma polar_loop_calls (colors : list Color) (groups : list (list Sat))
    (ind_group : nat) :
  ind_group + length groups <= length colors ->
  polar_loop Color colors ind_group groups
  = Ok (concat (zip_with polar_group_calls groups (drop ind_group colors))).
Proof.
  revert ind_group.
  induction groups as [|sat_group groups IH]; intros ind_group Hlen; [done|].
  simpl in Hlen. cbn [polar_loop].
  destruct (lookup_lt_is_Some_2 colors ind_group) as [color Hc]; [lia|].
  rewrite (getitem_nat _ _ _ Hc). cbn [bind].
  rewrite IH by lia. cbn [bind].
  rewrite (drop_S _ _ _ Hc). done.
Qed.

Lemma ground_loop_calls (colors : list Color)
    (items : list (string * list Sat)) (ind_group : nat) :
  ind_group + length items <= length colors ->
  ground_loop Color mill colors ind_group items
  = Ok (zip_with (ground_group_call mill) items (drop ind_group colors)).
Proof.
  revert ind_group.
  induction items as [|[key sat_group] items IH]; intros ind_group Hlen;
    [done|].
  simpl in Hlen. cbn [ground_loop].
  destruct (lookup_lt_is_Some_2 colors ind_group) as [color Hc]; [lia|].
  unfold project. rewrite (getitem_nat _ _ _ Hc). cbn [bind].
  rewrite IH by lia. cbn [bind].
  rewrite (drop_S _ _ _ Hc). cbn [zip_with]. do 2 f_equal.
  unfold ground_group_call, ground_point. cbn [fst snd].
  f_equal; induction sat_group as [|sat sat_group IHs]; simpl; congruence.
Qed.

End RendererFacts.

Section PlotFacts.

Variable Color : Type.
Variable nipy_spectral : float -> Color.
Variable mill : float -> float -> float * float.

Lemma scatters_app (l1 l2 : list (draw Color)) :
  scatters Color (l1 ++ l2) = scatters Color l1 ++ scatters Color l2.
Proof. apply omap_app. Qed.

Lemma annotations_app (l1 l2 : list (draw Color)) :
  annotations Color (l1 ++ l2)
  = annotations Color l1 ++ annotations Color l2.
Proof. apply omap_app. Qed.

Lemma scatters_annotate (sats : list Sat) (color : Color) :
  scatters Color
    (map (fun sat => Annotate (sat_name sat) (sat_az sat) (radius sat) color)
         sats) = [].
Proof. by induction sats. Qed.

Lemma annotations_annotate (sats : list Sat) (color : Color) :
  annotations Color
    (map (fun sat => Annotate (sat_name sat) (sat_az sat) (radius sat) color)
         sats)
  = map (fun sat => (sat_name sat, sat_az sat, radius sat, color)) sats.
Proof. induction sats as [|sat sats IH]; simpl; [done | by rewrite <- IH]. Qed.

Lemma scatters_polar_group (sat_group : list Sat) (color : Color) :
  scatters Color (polar_group_calls sat_group color)
  = [(map sat_az (visible sat_group), map radius (visible sat_group),
      color, None)].
Proof.
  unfold polar_group_calls.
  change (scatters Color (Scatter ?xs ?ys ?c ?l :: ?rest))
    with ((xs, ys, c, l) :: scatters Color rest).
  by rewrite scatters_annotate.
Qed.

Lemma annotations_polar_group (sat_group : list Sat) (color : Color) :
  annotations Color (polar_group_calls sat_group color)
  = map (fun sat => (sat_name sat, sat_az sat, radius sat, color))
        (visible sat_group).
Proof.
  unfold polar_group_calls.
  change (annotations Color (Scatter ?xs ?ys ?c ?l :: ?rest))
    with (annotations Color rest).
  by rewrite annotations_annotate.
Qed.

(** The scatter calls of the polar loop: one per group, in order. *)
Lemma scatters_polar (groups : list (list Sat)) (colors : list Color) :
  scatters Color (concat (zip_with polar_group_calls groups colors))
  = zip_with (fun sat_group color =>
                (map sat_az (visible sat_group),
                 map radius (visible sat_group), color, None))
             groups colors.
Proof.
  revert colors. induction groups as [|g groups IH]; intros [|c colors];
    try done.
  cbn [zip_with concat]. by rewrite scatters_app, IH, scatters_polar_group.
Qed.

(** Its annotation calls: the visible satellites of each group. *)
Lemma annotations_polar (groups : list (list Sat)) (colors : list Color) :
  annotations Color (concat (zip_with polar_group_calls groups colors))
  = concat (zip_with (fun sat_group color =>
              map (fun sat => (sat_name sat, sat_az sat, radius sat, color))
                  (visible sat_group))
            groups colors).
Proof.
  revert colors. induction groups as [|g groups IH]; intros [|c colors];
    try done.
  cbn [zip_with concat].
  by rewrite annotations_app, IH, annotations_polar_group.
Qed.

Lemma scatters_ground (items : list (string * list Sat))
    (colors : list Color) :
  scatters Color (zip_with (ground_group_call mill) items colors)
  = zip_with (fun item color =>
                (map (fun sat => (ground_point mill sat).1) item.2,
                 map (fun sat => (ground_point mill sat).2) item.2,
                 color, Some item.1))
             items colors.
Proof.
  revert colors. induction items as [|it items IH]; intros [|c colors];
    try done.
  cbn [zip_with]. rewrite <- IH. done.
Qed.

(** [plot_polar_azel] raises nothing, and these are its calls. *)
Lemma plot_polar_azel_calls (sat_groups : PyDict.t (list Sat)) :
  plot_polar_azel Color nipy_spectral sat_groups
  = Ok ([SetThetaZeroLocation Color "N"; SetThetaDirection Color (-1)]
          ++ concat (zip_with polar_group_calls (PyDict.values sat_groups)
                       (group_colors Color nipy_spectral
                          (PyDict.len sat_groups)))
          ++ [SetYTicks Color [0; 10; 20; 30; 40; 50; 60; 70; 80; 90]%Z;
              SetYTickLabels Color
                ["90"; ""; ""; "60"; ""; ""; "30"; ""; ""; ""];
              Grid Color true]).
Proof.
  unfold plot_polar_azel. rewrite polar_loop_calls.
  - done.
  - rewrite group_colors_length. unfold PyDict.values, PyDict.len.
    by rewrite length_map.
Qed.

Lemma plot_polar_azel_scatters (sat_groups : PyDict.t (list Sat)) calls :
  plot_polar_azel Color nipy_spectral sat_groups = Ok calls ->
  scatters Color calls
  = zip_with (fun sat_group color =>
                (map sat_az (visible sat_group),
                 map radius (visible sat_group), color, None))
             (PyDict.values sat_groups)
             (group_colors Color nipy_spectral (PyDict.len sat_groups)).
Proof.
  rewrite plot_polar_azel_calls. intros [= <-].
  change (scatters Color (?a :: ?b :: ?l)) with (scatters Color l).
  rewrite scatters_app, scatters_polar. apply app_nil_r.
Qed.

Lemma plot_polar_azel_annotations (sat_groups : PyDict.t (list Sat)) calls :
  plot_polar_azel Color nipy_spectral sat_groups = Ok calls ->
  annotations Color calls
  = concat (zip_with (fun sat_group color =>
              map (fun sat => (sat_name sat, sat_az sat, radius sat, color))
                  (visible sat_group))
            (PyDict.values sat_groups)
            (group_colors Color nipy_spectral (PyDict.len sat_groups))).
Proof.
  rewrite plot_polar_azel_calls. intros [= <-].
  change (annotations Color (?a :: ?b :: ?l)) with (annotations Color l).
  rewrite annotations_app, annotations_polar. apply app_nil_r.
Qed.

(** [plot_ground_tracks] raises nothing, and these are its calls. *)
Lemma plot_ground_tracks_calls (m : utils_module) (w : world)
    (sat_groups : PyDict.t (list Sat)) (obs_time : option datetime) :
  plot_ground_tracks Color nipy_spectral mill m w sat_groups obs_time
  = Ok ([DrawCoastlines Color; BlueMarble Color;
         Nightshade Color
           (bind_obs_time (plot_ground_tracks_default m) w obs_time)]
          ++ zip_with (ground_group_call mill) (PyDict.items sat_groups)
               (group_colors Color nipy_spectral (PyDict.len sat_groups))
          ++ [SupTitle Color
                (bind_obs_time (plot_ground_tracks_default m) w obs_time);
              Legend Color]).
Proof.
  unfold plot_ground_tracks. rewrite ground_loop_calls.
  - done.
  - rewrite group_colors_length. unfold PyDict.items, PyDict.len. lia.
Qed.

Lemma plot_ground_tracks_scatters (m : utils_module) (w : world)
    (sat_groups : PyDict.t (list Sat)) (obs_time : option datetime) calls :
  plot_ground_tracks Color nipy_spectral mill m w sat_groups obs_time
  = Ok calls ->
  scatters Color calls
  = zip_with (fun item color =>
                (map (fun sat => (ground_point mill sat).1) item.2,
                 map (fun sat => (ground_point mill sat).2) item.2,
                 color, Some item.1))
             (PyDict.items sat_groups)
             (group_colors Color nipy_spectral (PyDict.len sat_groups)).
Proof.
  rewrite plot_ground_tracks_calls. intros [= <-].
  change (scatters Color (?a :: ?b :: ?c :: ?l)) with (scatters Color l).
  rewrite scatters_app, scatters_ground. apply app_nil_r.
Qed.

End PlotFacts.

Lemma visible_elem (sat_group : list Sat) (sat : Sat) :
  sat ∈ visible sat_group
  <-> sat ∈ sat_group /\ (0 <? sat_alt sat)%float = true.
Proof.
  rewrite visible_filter, !list_elem_of_In. apply filter_In.
Qed.

Lemma horizon_not_visible (sat_group : list Sat) (sat : Sat) :
  sat_alt sat = 0%float -> sat ∉ visible sat_group.
Proof. intros H0 [_ Hpos]%visible_elem. by rewrite H0 in Hpos. Qed.

Lemma zip_with_lookup_l {A B C : Type} (f : A -> B -> C)
    (l : list A) (k : list B) (i : nat) (x : A) :
  length l = length k -> l !! i = Some x ->
  exists y, k !! i = Some y /\ zip_with f l k !! i = Some (f x y).
Proof.
  intros Hlen Hx.
  destruct (lookup_lt_is_Some_2 k i) as [y Hy];
    [rewrite <- Hlen; by eapply lookup_lt_Some|].
  exists y. split; [done|]. rewrite lookup_zip_with, Hx. simpl. by rewrite Hy.
Qed.

Lemma values_colors_length {Color : Type} (nipy_spectral : float -> Color)
    (sat_groups : PyDict.t (list Sat)) :
  length (PyDict.values sat_groups)
  = length (group_colors Color nipy_spectral (PyDict.len sat_groups)).
Proof.
  rewrite group_colors_length. unfold PyDict.values, PyDict.len.
  apply length_map.
Qed.

(** C2.  The polar renderer plots, for each group, exactly the satellites
    whose elevation is strictly greater than 0, in the order of the group:
    the scatter call and the annotations of a group are those of the
    filtered list.  A satellite at elevation exactly 0 is left out. *)
Theorem plot_polar_azel_visibility (Color : Type)
    (nipy_spectral : float -> Color) (sat_groups : PyDict.t (list Sat)) :
  exists calls,
    plot_polar_azel Color nipy_spectral sat_groups = Ok calls
    /\ length (scatters Color calls) = PyDict.len sat_groups
    /\ (forall i sat_group,
          PyDict.values sat_groups !! i = Some sat_group ->
          exists color,
            scatters Color calls !! i
            = Some (map sat_az (visible sat_group),
                    map radius (visible sat_group), color, None))
    /\ map (fun a => a.1.1.1) (annotations Color calls)
       = concat (map (fun sat_group => map sat_name (visible sat_group))
                     (PyDict.values sat_groups))
    /\ (forall sat_group,
          visible sat_group
          = List.filter (fun sat => (0 <? sat_alt sat)%float) sat_group)
    /\ (forall sat_group sat,
          sat ∈ visible sat_group
          <-> sat ∈ sat_group /\ (0 <? sat_alt sat)%float = true)
    /\ (forall sat_group sat,
          sat_alt sat = 0%float -> sat ∉ visible sat_group).
Proof.
  eexists. split; [apply plot_polar_azel_calls|].
  pose proof (plot_polar_azel_scatters Color nipy_spectral sat_groups _
                (plot_polar_azel_calls _ _ _)) as Hs.
  pose proof (plot_polar_azel_annotations Color nipy_spectral sat_groups _
                (plot_polar_azel_calls _ _ _)) as Ha.
  pose proof (values_colors_length nipy_spectral sat_groups) as Hlen.
  rewrite Hs, Ha. clear Hs Ha.
  split; [|split; [|split; [|split; [|split]]]].
  - rewrite length_zip_with, <- Hlen, Nat.min_id.
    unfold PyDict.values, PyDict.len. apply length_map.
  - intros i sat_group Hi.
    destruct (zip_with_lookup_l
                (fun sat_group color =>
                   (map sat_az (visible sat_group),
                    map radius (visible sat_group), color,
                    @None string))
                _ _ i sat_group Hlen Hi) as (color & _ & Hz).
    by exists color.
  - revert Hlen.
    generalize (group_colors Color nipy_spectral (PyDict.len sat_groups)).
    induction (PyDict.values sat_groups) as [|g gs IH]; intros [|c cs] Hlen;
      try done.
    cbn [zip_with concat map]. rewrite map_app, IH by (simpl in Hlen; lia).
    f_equal. by rewrite map_map.
  - apply visible_filter.
  - apply visible_elem.
  - apply horizon_not_visible.
Qed.

(** C3.  The radial coordinate of every plotted satellite, in the scatter
    call and in its annotation, is [90 - rad2deg alt], 90 minus its
    elevation in degrees: a satellite whose elevation is 90 degrees plots
    at radius 0 and one whose elevation is 0 degrees at radius 90.  The
    plotted satellites are those of elevation strictly greater than 0. *)
Theorem plot_polar_azel_radius (Color : Type)
    (nipy_spectral : float -> Color) (sat_groups : PyDict.t (list Sat)) :
  exists calls,
    plot_polar_azel Color nipy_spectral sat_groups = Ok calls
    /\ (forall i sat_group,
          PyDict.values sat_groups !! i = Some sat_group ->
          exists xs color,
            scatters Color calls !! i
            = Some (xs,
                    map (fun sat => (90 - rad2deg (sat_alt sat))%float)
                        (visible sat_group),
                    color, None))
    /\ map (fun a => a.1.2) (annotations Color calls)
       = concat (map (fun sat_group =>
                        map (fun sat => (90 - rad2deg (sat_alt sat))%float)
                            (visible sat_group))
                     (PyDict.values sat_groups))
    /\ (forall sat_group sat,
          sat ∈ visible sat_group -> (0 <? sat_alt sat)%float = true)
    /\ (forall sat, rad2deg (sat_alt sat) = 90%float -> radius sat = 0%float)
    /\ (forall sat, rad2deg (sat_alt sat) = 0%float -> radius sat = 90%float)
    /\ rad2deg (sat_alt zenith_sat) = 90%float
    /\ visible [zenith_sat] = [zenith_sat]
    /\ radius zenith_sat = 0%float
    /\ (forall sat_group sat,
          sat_alt sat = 0%float -> sat ∉ visible sat_group).
Proof.
  eexists. split; [apply plot_polar_azel_calls|].
  pose proof (plot_polar_azel_scatters Color nipy_spectral sat_groups _
                (plot_polar_azel_calls _ _ _)) as Hs.
  pose proof (plot_polar_azel_annotations Color nipy_spectral sat_groups _
                (plot_polar_azel_calls _ _ _)) as Ha.
  pose proof (values_colors_length nipy_spectral sat_groups) as Hlen.
  rewrite Hs, Ha. clear Hs Ha.
  split; [|split; [|split; [|split; [|split; [|split; [|split; [|split]]]]]]].
  - intros i sat_group Hi.
    destruct (zip_with_lookup_l
                (fun sat_group color =>
                   (map sat_az (visible sat_group),
                    map radius (visible sat_group), color,
                    @None string))
                _ _ i sat_group Hlen Hi) as (color & _ & Hz).
    by exists (map sat_az (visible sat_group)), color.
  - revert Hlen.
    generalize (group_colors Color nipy_spectral (PyDict.len sat_groups)).
    induction (PyDict.values sat_groups) as [|g gs IH]; intros [|c cs] Hlen;
      try done.
    cbn [zip_with concat map]. rewrite map_app, IH by (simpl in Hlen; lia).
    f_equal. by rewrite map_map.
  - intros sat_group sat Hin. by apply visible_elem in Hin as [_ ?].
  - intros sat H90. unfold radius. by rewrite H90.
  - intros sat H0. unfold radius. by rewrite H0.
  - by vm_compute.
  - by vm_compute.
  - by vm_compute.
  - apply horizon_not_visible.
Qed.

(** At the two ends: of a zenith satellite, one at the smallest positive
    elevation and one at elevation exactly 0, the first plots at radius 0,
    the second at radius 90, and the third is not plotted. *)
Lemma plot_polar_azel_radius_witness :
  exists calls xs color,
    plot_polar_azel float toy_colormap
      [("GPS-OPS", [zenith_sat; lowest_sat; horizon_sat])] = Ok calls
    /\ scatters float calls !! 0
       = Some (xs, [0%float; 90%float], color, None).
Proof.
  destruct (plot_polar_azel_radius float toy_colormap
              [("GPS-OPS", [zenith_sat; lowest_sat; horizon_sat])])
    as (calls & Hcalls & Hys & _).
  destruct (Hys 0 [zenith_sat; lowest_sat; horizon_sat] eq_refl)
    as (xs & color & H0).
  exists calls, xs, color. split; [exact Hcalls|]. rewrite H0.
  by vm_compute.
Defined.

Lemma zip_with_colors {A X Color : Type} (f : A -> Color -> X)
    (color_of : X -> Color) (l : list A) (colors : list Color) :
  (forall a c, color_of (f a c) = c) -> length l = length colors ->
  map color_of (zip_with f l colors) = colors.
Proof.
  intros Hf. revert colors.
  induction l as [|a l IH]; intros [|c colors] Hlen; try done.
  simpl in *. rewrite Hf, IH; [done | lia].
Qed.

(** C4.  The colors a renderer uses are [nipy_spectral] at the samples of
    [linspace(0, 1, n)], [n] the number of groups, the group at index [i]
    taking the [i]-th: they depend on the index and the count alone.  Two
    mappings with the same number of groups get the same colors, and both
    renderers use the same ones. *)
Theorem group_color_by_index (Color : Type) (nipy_spectral : float -> Color)
    (mill : float -> float -> float * float)
    (m : utils_module) (w : world) (obs_time : option datetime)
    (sat_groups1 sat_groups2 : PyDict.t (list Sat)) :
  PyDict.len sat_groups1 = PyDict.len sat_groups2 ->
  exists polar1 polar2 ground1 ground2,
    plot_polar_azel Color nipy_spectral sat_groups1 = Ok polar1
    /\ plot_polar_azel Color nipy_spectral sat_groups2 = Ok polar2
    /\ plot_ground_tracks Color nipy_spectral mill m w sat_groups1 obs_time
       = Ok ground1
    /\ plot_ground_tracks Color nipy_spectral mill m w sat_groups2 obs_time
       = Ok ground2
    /\ scatter_colors Color polar1
       = map nipy_spectral (linspace01 (PyDict.len sat_groups1))
    /\ scatter_colors Color polar2 = scatter_colors Color polar1
    /\ scatter_colors Color ground1 = scatter_colors Color polar1
    /\ scatter_colors Color ground2 = scatter_colors Color polar1
    /\ (forall i sat_group,
          PyDict.values sat_groups1 !! i = Some sat_group ->
          exists x,
            linspace01 (PyDict.len sat_groups1) !! i = Some x
            /\ scatter_colors Color polar1 !! i = Some (nipy_spectral x)).
Proof.
  intros Hn.
  assert (Hpolar : forall sat_groups calls,
            plot_polar_azel Color nipy_spectral sat_groups = Ok calls ->
            scatter_colors Color calls
            = group_colors Color nipy_spectral (PyDict.len sat_groups)).
  { intros sat_groups calls Hcalls. unfold scatter_colors.
    rewrite (plot_polar_azel_scatters _ _ _ _ Hcalls).
    apply zip_with_colors; [done|]. apply values_colors_length. }
  assert (Hground : forall sat_groups calls,
            plot_ground_tracks Color nipy_spectral mill m w sat_groups obs_time
            = Ok calls ->
            scatter_colors Color calls
            = group_colors Color nipy_spectral (PyDict.len sat_groups)).
  { intros sat_groups calls Hcalls. unfold scatter_colors.
    rewrite (plot_ground_tracks_scatters _ _ _ _ _ _ _ _ Hcalls).
    apply zip_with_colors; [done|]. rewrite group_colors_length. done. }
  do 4 eexists.
  split; [apply plot_polar_azel_calls|].
  split; [apply plot_polar_azel_calls|].
  split; [apply plot_ground_tracks_calls|].
  split; [apply plot_ground_tracks_calls|].
  rewrite (Hpolar sat_groups1 _ (plot_polar_azel_calls _ _ _)).
  rewrite (Hpolar sat_groups2 _ (plot_polar_azel_calls _ _ _)).
  rewrite (Hground sat_groups1 _ (plot_ground_tracks_calls _ _ _ _ _ _ _)).
  rewrite (Hground sat_groups2 _ (plot_ground_tracks_calls _ _ _ _ _ _ _)).
  rewrite <- Hn. unfold group_colors.
  split; [done|]. split; [done|]. split; [done|]. split; [done|].
  intros i sat_group Hi.
  destruct (lookup_lt_is_Some_2 (linspace01 (PyDict.len sat_groups1)) i)
    as [x Hx].
  { rewrite linspace01_length. apply lookup_lt_Some in Hi.
    unfold PyDict.values in Hi. by rewrite length_map in Hi. }
  exists x. split; [done|]. by rewrite list_lookup_fmap, Hx.
Qed.

Lemma group_color_by_index_witness :
  PyDict.len [("GPS-OPS", [zenith_sat]); ("SBAS", [below_sat])]
  = PyDict.len [("GLO-OPS", [horizon_sat; sat_A]); ("BEIDOU", [] : list Sat)]
  /\ exists polar1 polar2 ground1,
       plot_polar_azel float toy_colormap
         [("GPS-OPS", [zenith_sat]); ("SBAS", [below_sat])] = Ok polar1
       /\ plot_polar_azel float toy_colormap
            [("GLO-OPS", [horizon_sat; sat_A]); ("BEIDOU", [])] = Ok polar2
       /\ plot_ground_tracks float toy_colormap toy_mill toy_module
            (mkWorld 7) [("GPS-OPS", [zenith_sat]); ("SBAS", [below_sat])]
            None = Ok ground1
       /\ scatter_colors float polar1 = [0%float; 1%float]
       /\ scatter_colors float polar2 = scatter_colors float polar1
       /\ scatter_colors float ground1 = scatter_colors float polar1.
Proof.
  split; [reflexivity|].
  destruct (group_color_by_index float toy_colormap toy_mill toy_module
              (mkWorld 7) None
              [("GPS-OPS", [zenith_sat]); ("SBAS", [below_sat])]
              [("GLO-OPS", [horizon_sat; sat_A]); ("BEIDOU", [])] eq_refl)
    as (p1 & p2 & g1 & g2 & H1 & H2 & H3 & _ & Hc & Hp & Hg & _).
  exists p1, p2, g1. by repeat split.
Defined.

(** C8.  The ground-track renderer makes one scatter call per group, in
    order, labelled with the group key, holding one point per record of
    the group: the projection of its sub-longitude and sub-latitude in
    degrees.  The elevation is not read, so a satellite below the horizon
    is plotted like any other. *)
Theorem plot_ground_tracks_all (Color : Type) (nipy_spectral : float -> Color)
    (mill : float -> float -> float * float)
    (m : utils_module) (w : world) (obs_time : option datetime)
    (sat_groups : PyDict.t (list Sat)) :
  exists calls,
    plot_ground_tracks Color nipy_spectral mill m w sat_groups obs_time
    = Ok calls
    /\ length (scatters Color calls) = PyDict.len sat_groups
    /\ (forall i key sat_group,
          PyDict.items sat_groups !! i = Some (key, sat_group) ->
          exists xs ys color,
            scatters Color calls !! i = Some (xs, ys, color, Some key)
            /\ length xs = length sat_group
            /\ length ys = length sat_group
            /\ forall j sat,
                 sat_group !! j = Some sat ->
                 xs !! j = Some (mill (rad2deg (sat_sublong sat))
                                      (rad2deg (sat_sublat sat))).1
                 /\ ys !! j = Some (mill (rad2deg (sat_sublong sat))
                                         (rad2deg (sat_sublat sat))).2).
Proof.
  eexists. split; [apply plot_ground_tracks_calls|].
  rewrite (plot_ground_tracks_scatters Color nipy_spectral mill m w
             sat_groups obs_time _ (plot_ground_tracks_calls _ _ _ _ _ _ _)).
  assert (Hlen : length (PyDict.items sat_groups)
                 = length (group_colors Color nipy_spectral
                             (PyDict.len sat_groups)))
    by (by rewrite group_colors_length).
  split.
  - by rewrite length_zip_with, <- Hlen, Nat.min_id.
  - intros i key sat_group Hi.
    destruct (zip_with_lookup_l
                (fun (item : string * list Sat) (color : Color) =>
                   (map (fun sat => (ground_point mill sat).1) item.2,
                    map (fun sat => (ground_point mill sat).2) item.2,
                    color, Some item.1))
                _ _ i (key, sat_group) Hlen Hi) as (color & _ & Hz).
    eexists _, _, color. split; [exact Hz|]. cbn [fst snd].
    rewrite !length_map. split; [done|]. split; [done|].
    intros j sat Hj. rewrite !list_lookup_fmap, Hj. done.
Qed.

(** ** Default timestamps *)

(** C5.  The timestamp of a call without [obs_time] is the reading of the
    clock when the module was imported, whatever the clock shows at the
    call: imported at instant 0 and called at instants 10 and 20,
    [get_observer] gives the date 0 both times, and [plot_ground_tracks]
    shades and titles the map for instant 0. *)
Theorem default_obs_time_bound_at_import :
  let m := import_utils (mkWorld 0) (mkWorld 0) in
  obs_date (get_observer m (mkWorld 10) (CStr "37.3860") (CStr "-122.0838") None)
  = 0%Z
  /\ obs_date
       (get_observer m (mkWorld 20) (CStr "37.3860") (CStr "-122.0838") None)
     = 0%Z
  /\ plot_ground_tracks float toy_colormap toy_mill m (mkWorld 10) [] None
     = Ok [DrawCoastlines float; BlueMarble float; Nightshade float 0;
           SupTitle float 0; Legend float]
  /\ plot_ground_tracks float toy_colormap toy_mill m (mkWorld 20) [] None
     = Ok [DrawCoastlines float; BlueMarble float; Nightshade float 0;
           SupTitle float 0; Legend float].
Proof. by vm_compute. Qed.

(** Whatever the instants, the default timestamp of [get_observer] is the
    one read at import. *)
Lemma get_observer_default_call_independent
    (w_import w_import' w_call : world) (lat lon : coord) :
  obs_date (get_observer (import_utils w_import w_import') w_call lat lon None)
  = utcnow w_import.
Proof. reflexivity. Qed.

(** * Further properties of the code *)

(** ** Group keys *)

Module KeyFacts.
Import PyStr OsPath.

(** Where [rfind] points: nowhere when the character is absent, else at
    the occurrence after which there is no other. *)
Lemma rfind_from_spec c s i last :
  (count c s = 0 /\ rfind_from c s i last = last)
  \/ (exists s1 s2, s = s1 +:+ String c s2 /\ count c s2 = 0
        /\ rfind_from c s i last = (i + Z.of_nat (String.length s1))%Z).
Proof.
  revert i last. induction s as [|a s IH]; intros i last; [by left|].
  cbn [rfind_from count].
  destruct (IH (i + 1)%Z (if Ascii.eqb a c then i else last))
    as [[H0 Hr]|(s1 & s2 & -> & H2 & Hr)].
  - destruct (Ascii.eqb_spec a c) as [->|Hne].
    + right. exists EmptyString, s. repeat split; [done|].
      rewrite Hr. simpl. lia.
    + left. by rewrite H0, Hr.
  - right. exists (String a s1), s2. repeat split; [done|].
    rewrite Hr. cbn [String.length]. lia.
Qed.

Lemma count_slice_to c n s : count c (slice_to n s) <= count c s.
Proof.
  revert s. induction n as [|n IH]; intros [|a s]; simpl; try lia.
  specialize (IH s). lia.
Qed.

Lemma basename_no_sep p : count sep (basename p) = 0.
Proof.
  unfold basename, rfind.
  destruct (rfind_from_spec sep p 0 (-1)) as [[H0 ->]|(s1 & s2 & -> & H2 & ->)].
  - done.
  - replace (Z.to_nat (0 + Z.of_nat (String.length s1) + 1))
      with (String.length (s1 +:+ String sep EmptyString))
      by (rewrite PyStrFacts.length_append; simpl; lia).
    replace (s1 +:+ String sep s2)
      with ((s1 +:+ String sep EmptyString) +:+ s2)
      by (by rewrite PyStrFacts.append_assoc).
    by rewrite PyStrFacts.slice_from_app.
Qed.

Lemma splitext_no_sep p : count sep p = 0 -> count sep (splitext p).1 = 0.
Proof.
  intros Hp. unfold splitext.
  destruct (_ && _); cbn [fst]; [|done].
  pose proof (count_slice_to sep (Z.to_nat (rfind extsep p)) p). lia.
Qed.

Lemma upper_char_not_lower a : is_lower (upper_char a) = false.
Proof. destruct a as [[] [] [] [] [] [] [] []]; reflexivity. Qed.

Lemma upper_char_sep a : Ascii.eqb (upper_char a) sep = Ascii.eqb a sep.
Proof. destruct a as [[] [] [] [] [] [] [] []]; reflexivity. Qed.

Lemma upper_count_sep s : count sep (upper s) = count sep s.
Proof.
  induction s as [|a s IH]; [done|]. simpl. by rewrite upper_char_sep, IH.
Qed.

Lemma upper_not_lower s :
  all_chars (fun a => negb (is_lower a)) (upper s) = true.
Proof.
  induction s as [|a s IH]; [done|]. simpl.
  by rewrite upper_char_not_lower, IH.
Qed.

Lemma upper_idempotent s : upper (upper s) = upper s.
Proof.
  induction s as [|a s IH]; [done|]. simpl. rewrite IH. f_equal.
  destruct a as [[] [] [] [] [] [] [] []]; reflexivity.
Qed.

(** [splitext] of a name [stem.ext] whose stem is not empty and has
    neither slash nor dot, and whose [ext] has neither. *)
Lemma splitext_stem_ext stem ext :
  stem <> EmptyString ->
  count sep stem = 0 -> count extsep stem = 0 ->
  count sep ext = 0 -> count extsep ext = 0 ->
  splitext (stem +:+ String extsep ext) = (stem, String extsep ext).
Proof.
  intros Hne Hs1 Hd1 Hs2 Hd2. unfold splitext, rfind.
  rewrite (PyStrFacts.rfind_from_absent sep).
  2:{ rewrite PyStrFacts.count_app. simpl. rewrite Hs1, Hs2. done. }
  rewrite PyStrFacts.rfind_from_app. cbn [rfind_from].
  rewrite Ascii.eqb_refl, !PyStrFacts.rfind_from_absent by done.
  replace (Z.to_nat (0 + Z.of_nat (String.length stem)))
    with (String.length stem) by lia.
  rewrite PyStrFacts.slice_to_app, PyStrFacts.slice_from_app.
  destruct stem as [|a stem]; [done|].
  assert (Ha : Ascii.eqb a extsep = false).
  { simpl in Hd1. by destruct (Ascii.eqb a extsep). }
  destruct (Z.ltb_spec (-1) (0 + Z.of_nat (String.length (String a stem))));
    [|simpl in *; lia].
  cbn [andb]. replace (Z.to_nat (-1 + 1)) with 0 by lia.
  replace (Z.to_nat (0 + Z.of_nat (String.length (String a stem)) - (-1 + 1)))
    with (S (String.length stem)) by (simpl; lia).
  cbn [has_non_dot]. unfold char_at.
  rewrite PyStrFacts.append_cons. cbn [slice_from slice_to String.eqb].
  by rewrite Ha.
Qed.

Lemma splitext_no_dot file :
  count extsep file = 0 -> splitext file = (file, EmptyString).
Proof.
  intros Hd. unfold splitext, rfind.
  rewrite (PyStrFacts.rfind_from_absent extsep) by done.
  destruct (rfind_from_spec sep file 0 (-1)) as [[_ ->]|(s1 & s2 & _ & _ & ->)].
  - done.
  - destruct (Z.ltb_spec (0 + Z.of_nat (String.length s1)) (-1)); [lia|done].
Qed.

End KeyFacts.

Module KeySplit.
Import PyStr OsPath.

Lemma slice_to_from (n : nat) (s : string) :
  slice_to n s +:+ slice_from n s = s.
Proof.
  revert s. induction n as [|n IH]; intros [|a s]; try done.
  cbn [slice_to slice_from]. rewrite PyStrFacts.append_cons.
  by rewrite IH.
Qed.


(** A path is a directory part, empty or ending with a slash, followed by
    its base name. *)
Lemma basename_split (p : string) :
  exists dir,
    p = dir +:+ basename p
    /\ (dir = EmptyString \/ exists dir', dir = dir' +:+ "/").
Proof.
  unfold basename, rfind.
  destruct (KeyFacts.rfind_from_spec sep p 0 (-1))
    as [[_ ->]|(s1 & s2 & -> & H2 & ->)].
  - exists EmptyString. split; [done | by left].
  - exists (s1 +:+ "/"). split; [|right; by exists s1].
    replace (Z.to_nat (0 + Z.of_nat (String.length s1) + 1))
      with (String.length (s1 +:+ "/"))
      by (rewrite PyStrFacts.length_append; simpl; lia).
    replace (s1 +:+ String sep s2) with ((s1 +:+ "/") +:+ s2)
      by (by rewrite PyStrFacts.append_assoc).
    by rewrite PyStrFacts.slice_from_app.
Qed.

(** The loop that skips leading dots finds a character other than the
    dot exactly when the scanned part is not made of dots only. *)
Lemma has_non_dot_all_dots (pre s rest : string) :
  has_non_dot (pre +:+ s +:+ rest) (String.length pre) (String.length s)
  = negb (all_dots s).
Proof.
  revert pre. induction s as [|a s IH]; intros pre; [done|].
  cbn [String.length has_non_dot]. unfold char_at.
  rewrite PyStrFacts.slice_from_app, PyStrFacts.append_cons.
  cbn [slice_to String.eqb]. unfold all_dots. cbn [all_chars].
  change extsep with "."%char.
  destruct (Ascii.eqb a ".") eqn:Ha; [|done]. cbn [andb].
  replace (pre +:+ String a (s +:+ rest))
    with ((pre +:+ String a EmptyString) +:+ s +:+ rest)
    by (by rewrite PyStrFacts.append_assoc).
  replace (S (String.length pre))
    with (String.length (pre +:+ String a EmptyString))
    by (rewrite PyStrFacts.length_append; simpl; lia).
  apply IH.
Qed.

(** [splitext] on a base name: the extension starts at the last dot when
    a character other than the dot comes before it; there is none when
    the name has no dot or only dots before its last dot. *)
Lemma splitext_cases (base : string) :
  count sep base = 0 ->
  (exists stem ext,
     base = stem +:+ String "." ext /\ count "." ext = 0
     /\ all_dots stem = false
     /\ splitext base = (stem, String "." ext))
  \/ ((count "." base = 0
       \/ exists dots ext,
            base = dots +:+ String "." ext /\ all_dots dots = true
            /\ count "." ext = 0)
      /\ splitext base = (base, EmptyString)).
Proof.
  intros Hsep. unfold splitext, rfind.
  rewrite (PyStrFacts.rfind_from_absent sep) by done.
  destruct (KeyFacts.rfind_from_spec extsep base 0 (-1))
    as [[H0 ->]|(s1 & s2 & -> & H2 & ->)].
  - right. split; [by left | done].
  - destruct (Z.ltb_spec (-1) (0 + Z.of_nat (String.length s1))); [|lia].
    cbn [andb]. replace (Z.to_nat (-1 + 1)) with 0 by lia.
    replace (Z.to_nat (0 + Z.of_nat (String.length s1) - (-1 + 1)))
      with (String.length s1) by lia.
    replace (Z.to_nat (0 + Z.of_nat (String.length s1)))
      with (String.length s1) by lia.
    pose proof (has_non_dot_all_dots EmptyString s1 (String extsep s2)) as Hd.
    change (EmptyString +:+ s1 +:+ String extsep s2)
      with (s1 +:+ String extsep s2) in Hd.
    change (String.length EmptyString) with 0 in Hd. rewrite Hd.
    destruct (all_dots s1) eqn:Hdots; cbn [negb].
    + right. split; [|done]. right. by exists s1, s2.
    + left. exists s1, s2.
      by rewrite PyStrFacts.slice_to_app, PyStrFacts.slice_from_app.
Qed.

(** The key of a URL, through its directory part, base name and stem. *)
Lemma sat_group_name_cases (tle_file : string) :
  exists dir base stem : string,
    tle_file = dir +:+ base
    /\ (dir = EmptyString \/ exists dir', dir = dir' +:+ "/")
    /\ count "/" base = 0
    /\ ((exists ext, base = stem +:+ String "." ext /\ count "." ext = 0
                     /\ all_dots stem = false)
        \/ (stem = base
            /\ (count "." base = 0
                \/ exists dots ext,
                     base = dots +:+ String "." ext /\ all_dots dots = true
                     /\ count "." ext = 0)))
    /\ sat_group_name tle_file = upper stem.
Proof.
  destruct (basename_split tle_file) as (dir & Hdir & Hshape).
  pose proof (KeyFacts.basename_no_sep tle_file) as Hsep.
  unfold sat_group_name.
  exists dir, (basename tle_file), (splitext (basename tle_file)).1.
  split; [done|]. split; [done|]. split; [done|]. split; [|done].
  destruct (splitext_cases _ Hsep)
    as [(stem & ext & Hb & He & Hs & ->)|[Hcase ->]]; cbn [fst].
  - left. by exists ext.
  - by right.
Qed.

Lemma upper_length (s : string) : String.length (upper s) = String.length s.
Proof. induction s as [|a s IH]; [done|]. simpl. by rewrite IH. Qed.

Lemma upper_get (s : string) (i : nat) (a : ascii) :
  String.get i s = Some a -> String.get i (upper s) = Some (upper_char a).
Proof.
  revert i. induction s as [|b s IH]; intros [|i]; simpl; try done.
  - by intros [= ->].
  - apply IH.
Qed.

Lemma upper_char_code (a : ascii) : upper_char a = ascii_upper a.
Proof. destruct a as [[] [] [] [] [] [] [] []]; reflexivity. Qed.

End KeySplit.

(** C7.  The key of a URL is a function of the URL alone: the base file
    name (what follows the last slash) with its extension removed (what
    starts at its last dot, when a character other than the dot comes
    before that dot), each character upper-cased.  So any URL that ends in
    [/gps-ops.txt] has the key [GPS-OPS].  The general statement is for
    ASCII URLs. *)
Theorem sat_group_name_derivation (prefix tle_file : string) :
  OsPath.basename (prefix +:+ "/gps-ops.txt") = "gps-ops.txt"
  /\ OsPath.splitext "gps-ops.txt" = ("gps-ops", ".txt")
  /\ sat_group_name (prefix +:+ "/gps-ops.txt") = "GPS-OPS"
  /\ (is_ascii tle_file = true ->
      exists dir base stem : string,
        tle_file = dir +:+ base
        /\ (dir = EmptyString \/ exists dir', dir = dir' +:+ "/")
        /\ PyStr.count "/" base = 0
        /\ ((exists ext, base = stem +:+ "." +:+ ext
                         /\ PyStr.count "." ext = 0
                         /\ all_dots stem = false)
            \/ (stem = base
                /\ (PyStr.count "." base = 0
                    \/ exists dots ext,
                         base = dots +:+ "." +:+ ext
                         /\ all_dots dots = true
                         /\ PyStr.count "." ext = 0)))
        /\ String.length (sat_group_name tle_file) = String.length stem
        /\ forall i a,
             String.get i stem = Some a ->
             String.get i (sat_group_name tle_file) = Some (ascii_upper a)).
Proof.
  assert (Hb : OsPath.basename (prefix +:+ "/gps-ops.txt") = "gps-ops.txt")
    by (by apply (OsPathFacts.basename_app prefix "gps-ops.txt")).
  split; [exact Hb|]. split; [reflexivity|].
  split; [unfold sat_group_name; rewrite Hb; reflexivity|].
  intros _.
  destruct (KeySplit.sat_group_name_cases tle_file)
    as (dir & base & stem & Hurl & Hdir & Hsep & Hcases & ->).
  exists dir, base, stem.
  split; [done|]. split; [done|]. split; [done|]. split; [exact Hcases|].
  split; [apply KeySplit.upper_length|].
  intros i a Hi. rewrite <- KeySplit.upper_char_code.
  by apply KeySplit.upper_get.
Qed.

Lemma sat_group_name_derivation_witness :
  is_ascii "https://www.celestrak.com/NORAD/elements/glo-ops.txt" = true
  /\ exists dir base stem : string,
       "https://www.celestrak.com/NORAD/elements/glo-ops.txt" = dir +:+ base
       /\ PyStr.count "/" base = 0
       /\ String.length
            (sat_group_name
               "https://www.celestrak.com/NORAD/elements/glo-ops.txt")
          = String.length stem
       /\ sat_group_name "https://www.celestrak.com/NORAD/elements/glo-ops.txt"
          = "GLO-OPS".
Proof.
  split; [reflexivity|].
  destruct (sat_group_name_derivation EmptyString
              "https://www.celestrak.com/NORAD/elements/glo-ops.txt")
    as (_ & _ & _ & Hgeneral).
  destruct (Hgeneral eq_refl)
    as (dir & base & stem & Hurl & _ & Hsep & _ & Hlen & _).
  exists dir, base, stem. by repeat split.
Defined.

(** X1.  The group key of an ASCII URL whose last component is
    [stem.ext], with a non-empty stem free of slashes and dots and an
    extension free of them, is the stem in upper case, whatever precedes
    the last slash. *)
Theorem sat_group_name_stem (prefix stem ext : string) :
  is_ascii (prefix +:+ "/" +:+ stem +:+ "." +:+ ext) = true ->
  stem <> EmptyString ->
  PyStr.count "/" stem = 0 -> PyStr.count "." stem = 0 ->
  PyStr.count "/" ext = 0 -> PyStr.count "." ext = 0 ->
  sat_group_name (prefix +:+ "/" +:+ stem +:+ "." +:+ ext)
  = PyStr.upper stem.
Proof.
  intros _ Hne Hs1 Hd1 Hs2 Hd2. unfold sat_group_name.
  change (prefix +:+ "/" +:+ stem +:+ "." +:+ ext)
    with (prefix +:+ String OsPath.sep (stem +:+ String OsPath.extsep ext)).
  rewrite (OsPathFacts.basename_app prefix
             (stem +:+ String OsPath.extsep ext)).
  - by rewrite KeyFacts.splitext_stem_ext.
  - rewrite PyStrFacts.count_app. simpl.
    change OsPath.sep with "/"%char. by rewrite Hs1, Hs2.
Qed.

Lemma sat_group_name_stem_witness :
  sat_group_name
    ("https://celestrak.org/NORAD/elements" +:+ "/" +:+ "gp" +:+ "."
       +:+ "php?GROUP=gps-ops&FORMAT=tle") = "GP"
  /\ sat_group_name
       ("https://celestrak.org/NORAD/elements" +:+ "/" +:+ "gp" +:+ "."
          +:+ "php?GROUP=sbas&FORMAT=tle") = "GP".
Proof.
  split.
  - by apply (sat_group_name_stem "https://celestrak.org/NORAD/elements"
                "gp" "php?GROUP=gps-ops&FORMAT=tle").
  - by apply (sat_group_name_stem "https://celestrak.org/NORAD/elements"
                "gp" "php?GROUP=sbas&FORMAT=tle").
Defined.

(** X2.  When the last component of an ASCII URL has no dot there is no
    extension to remove: the key is the whole component in upper case. *)
Theorem sat_group_name_no_extension (prefix file : string) :
  is_ascii (prefix +:+ "/" +:+ file) = true ->
  PyStr.count "/" file = 0 -> PyStr.count "." file = 0 ->
  sat_group_name (prefix +:+ "/" +:+ file) = PyStr.upper file.
Proof.
  intros _ Hs Hd. unfold sat_group_name.
  change (prefix +:+ "/" +:+ file) with (prefix +:+ String OsPath.sep file).
  rewrite (OsPathFacts.basename_app prefix file) by done.
  by rewrite KeyFacts.splitext_no_dot.
Qed.

Lemma sat_group_name_no_extension_witness :
  sat_group_name ("https://host/elements" +:+ "/" +:+ "gps-ops") = "GPS-OPS"
  /\ sat_group_name ("https://host/elements" +:+ "/" +:+ "") = "".
Proof.
  split.
  - by apply (sat_group_name_no_extension "https://host/elements" "gps-ops").
  - by apply (sat_group_name_no_extension "https://host/elements" "").
Defined.

(** X3.  The group key of an ASCII URL never contains a slash and never
    contains a lower-case letter; upper-casing it again changes
    nothing. *)
Theorem sat_group_name_shape (tle_file : string) :
  is_ascii tle_file = true ->
  PyStr.count "/" (sat_group_name tle_file) = 0
  /\ all_chars (fun a => negb (is_lower a)) (sat_group_name tle_file) = true
  /\ PyStr.upper (sat_group_name tle_file) = sat_group_name tle_file.
Proof.
  intros _. unfold sat_group_name. split; [|split].
  - change "/"%char with OsPath.sep. rewrite KeyFacts.upper_count_sep.
    apply KeyFacts.splitext_no_sep, KeyFacts.basename_no_sep.
  - apply KeyFacts.upper_not_lower.
  - apply KeyFacts.upper_idempotent.
Qed.

Lemma sat_group_name_shape_witness :
  is_ascii "https://www.celestrak.com/NORAD/elements/galileo.txt" = true
  /\ PyStr.count "/"
       (sat_group_name "https://www.celestrak.com/NORAD/elements/galileo.txt")
     = 0
  /\ all_chars (fun a => negb (is_lower a))
       (sat_group_name "https://www.celestrak.com/NORAD/elements/galileo.txt")
     = true.
Proof.
  split; [reflexivity|].
  destruct (sat_group_name_shape
              "https://www.celestrak.com/NORAD/elements/galileo.txt" eq_refl)
    as (Hsep & Hlow & _).
  by split.
Defined.



(** ** Location data *)

Lemma split_app_absent c s1 s2 :
  PyStr.count c s1 = 0 ->
  PyStr.split c (s1 +:+ String c s2) = s1 :: PyStr.split c s2.
Proof.
  induction s1 as [|a s1 IH]; intros H0.
  - change (EmptyString +:+ String c s2) with (String c s2). simpl.
    by rewrite Ascii.eqb_refl.
  - rewrite PyStrFacts.append_cons. simpl in *.
    destruct (Ascii.eqb a c); [done|]. by rewrite IH.
Qed.

(** X4.  [get_current_latlon] returns a pair exactly when [loc] is a
    string made of the first component, one comma and the second
    component, neither component holding a comma: joining what it returns
    with a comma gives [loc] back. *)
Theorem get_current_latlon_returns (data : gmap string json)
    (lat lon : string) :
  get_current_latlon data = Ok (lat, lon)
  <-> data !! "loc" = Some (JStr (lat +:+ "," +:+ lon))
      /\ PyStr.count "," lat = 0 /\ PyStr.count "," lon = 0.
Proof.
  unfold get_current_latlon. split.
  - destruct (data !! "loc") as [[| | |loc| |]|] eqn:Hloc; try done.
    destruct (Nat.eq_dec (PyStr.count "," loc) 1) as [Hone|Hne].
    + destruct (PyStrFacts.split_once _ _ Hone)
        as (s1 & s2 & -> & H1 & H2 & ->).
      by intros [= <- <-].
    + pose proof (PyStrFacts.split_length "," loc) as Hlen.
      destruct (PyStr.split "," loc) as [|a [|b [|c l]]]; try done.
      simpl in Hlen. lia.
  - intros (-> & H1 & H2).
    change (lat +:+ "," +:+ lon) with (lat +:+ String "," lon).
    by rewrite split_app_absent, PyStrFacts.split_absent.
Qed.

(** X5.  [get_location_data] hands back the fetched record unchanged, and
    does so exactly when the record has both a [city] and a [region]: a
    record without one of them raises, although the two fields only feed
    the log message. *)
Theorem get_location_data_returns
    (fetch_json : string -> result (gmap string json))
    (data : gmap string json) :
  get_location_data fetch_json = Ok data
  <-> fetch_json "http://ipinfo.io/json" = Ok data
      /\ is_Some (data !! "city") /\ is_Some (data !! "region").
Proof.
  unfold get_location_data, dict_getitem. split.
  - destruct (fetch_json "http://ipinfo.io/json") as [d|]; cbn [bind]; [|done].
    destruct (d !! "city") as [city|] eqn:Hc; cbn [bind]; [|done].
    destruct (d !! "region") as [region|] eqn:Hr; cbn [bind]; [|done].
    intros [= <-]. repeat split; eauto.
  - intros (-> & [city Hc] & [region Hr]). cbn [bind].
    rewrite Hc. cbn [bind]. by rewrite Hr.
Qed.

(** ** Log level *)

Lemma log_level_clamp (verbose_level quiet_level : Z) :
  log_level verbose_level quiet_level
  = (30 - 10 * Z.max (-3) (Z.min 2 (verbose_level - quiet_level)))%Z.
Proof.
  unfold log_level.
  unfold Logging.CRITICAL, Logging.ERROR, Logging.WARNING, Logging.INFO,
    Logging.DEBUG.
  repeat match goal with
         | |- context [(?a <=? ?b)%Z] => destruct (Z.leb_spec a b)
         | |- context [(?a <? ?b)%Z] => destruct (Z.ltb_spec a b)
         end; cbn [andb]; lia.
Qed.

(** X6.  The level passed to [basicConfig] is [30 - 10 c], with [c] the
    difference [verbose - quiet] clamped to [-3 .. 2]: it depends on the
    difference alone, is one of 60, 50, 40, 30, 20, 10, and is WARNING
    when the two counts are equal. *)
Theorem log_level_closed_form (verbose_level quiet_level : Z) :
  Logging.level (set_log_level verbose_level quiet_level)
  = (30 - 10 * Z.max (-3) (Z.min 2 (verbose_level - quiet_level)))%Z.
Proof. apply log_level_clamp. Qed.

(** X7.  Raising the verbosity, or lowering the quietness, never raises
    the level: a larger [verbose - quiet] gives a level at most as high. *)
Theorem log_level_antitone (verbose1 quiet1 verbose2 quiet2 : Z) :
  (verbose1 - quiet1 <= verbose2 - quiet2)%Z ->
  (log_level verbose2 quiet2 <= log_level verbose1 quiet1)%Z.
Proof.
  intros Hle.
  rewrite !log_level_clamp. lia.
Qed.

Lemma log_level_antitone_witness :
  (0 - 1 <= 2 - 0)%Z
  /\ (log_level 2 0 <= log_level 0 1)%Z
  /\ log_level 2 0 = Logging.DEBUG /\ log_level 0 1 = Logging.ERROR.
Proof.
  split; [lia|]. split; [apply (log_level_antitone 0 1 2 0); lia|].
  split; reflexivity.
Defined.

(** ** Loader: short input, failures, concatenation, default catalogs *)

Lemma mapM_raise {A B : Type} (f : A -> result B) (l : list A)
    (i : nat) (x : A) (e : exn) :
  l !! i = Some x -> f x = Raise e ->
  (forall j y, j < i -> l !! j = Some y -> is_ok (f y)) ->
  mapM f l = Raise e.
Proof.
  revert l. induction i as [|i IH]; intros [|y l]; try done; simpl.
  - intros [= ->] -> _. done.
  - intros Hi Hx Hbefore.
    pose proof (Hbefore 0 y (Nat.lt_0_succ i) eq_refl) as Hy.
    destruct (f y); [|done]. cbn [bind].
    rewrite (IH l Hi Hx); [done|].
    intros j z Hj Hz. apply (Hbefore (S j) z); [lia | done].
Qed.

Lemma mapM_app {A B : Type} (f : A -> result B) (l1 l2 : list A) :
  mapM f (l1 ++ l2)
  = let* ys1 := mapM f l1 in let* ys2 := mapM f l2 in Ok (ys1 ++ ys2).
Proof.
  induction l1 as [|x l1 IH]; simpl.
  - by destruct (mapM f l2).
  - destruct (f x); cbn [bind]; [|done]. rewrite IH.
    destruct (mapM f l1); cbn [bind]; [|done].
    by destruct (mapM f l2).
Qed.

Lemma triplets_app (l1 l2 : list string) (k : nat) :
  length l1 = 3 * k -> triplets (l1 ++ l2) = triplets l1 ++ triplets l2.
Proof.
  revert l1. induction k as [|k IH]; intros l1 Hlen.
  - by destruct l1.
  - destruct l1 as [|a [|b [|c l1]]]; simpl in Hlen; try lia.
    cbn [app triplets]. rewrite IH by lia. done.
Qed.

(** X8.  A response of fewer than three lines holds no complete triplet:
    the parser is not called and the group is empty, without error. *)
Theorem read_sats_short
    (readtle : string -> string -> string -> result Sat)
    (lines : list string) :
  length lines < 3 -> read_sats readtle lines = Ok [].
Proof.
  intros Hlen. rewrite read_sats_triplets.
  by destruct lines as [|a [|b [|c l]]]; simpl in *; try lia.
Qed.

Lemma read_sats_short_witness :
  length ["GPS BIIR-2"; "x"] < 3
  /\ read_sats toy_readtle ["GPS BIIR-2"; "x"] = Ok []
  /\ read_sats toy_readtle [] = Ok [].
Proof.
  split; [simpl; lia|].
  split; apply read_sats_short; simpl; lia.
Defined.

(** X9.  When the parser rejects a complete triplet, and accepted every
    triplet before it, the whole response is rejected with that
    exception: the records parsed so far are dropped. *)
Theorem read_sats_raises
    (readtle : string -> string -> string -> result Sat)
    (lines : list string) (i : nat) (l0 l1 l2 : string) (e : exn) :
  lines !! (3 * i) = Some l0 -> lines !! (3 * i + 1) = Some l1 ->
  lines !! (3 * i + 2) = Some l2 ->
  readtle l0 l1 l2 = Raise e ->
  (forall j a b c,
     j < i -> lines !! (3 * j) = Some a -> lines !! (3 * j + 1) = Some b ->
     lines !! (3 * j + 2) = Some c -> is_ok (readtle a b c)) ->
  read_sats readtle lines = Raise e.
Proof.
  intros H0 H1 H2 He Hbefore. rewrite read_sats_triplets.
  apply (mapM_raise _ _ i (l0, l1, l2)).
  - by apply triplets_lookup.
  - done.
  - intros j [[a b] c] Hj Ht. apply triplets_lookup in Ht as (Ha & Hb & Hc).
    by apply (Hbefore j).
Qed.

Lemma read_sats_raises_witness :
  read_sats toy_readtle ["A"; "1 a"; "2 a"; "B"; "x"; "2 b"; "C"; "1 c"; "2 c"]
  = Raise ValueError.
Proof.
  apply (read_sats_raises toy_readtle _ 1 "B" "x" "2 b" ValueError);
    try reflexivity.
  intros [|j] a b c Hj; [|lia]. by intros [= <-] [= <-] [= <-].
Defined.

(** X10.  Catalogs concatenate: when the first of two blocks of lines has
    a multiple of three lines, the records of the two blocks put together
    are the records of the first followed by those of the second. *)
Theorem read_sats_app
    (readtle : string -> string -> string -> result Sat)
    (lines1 lines2 : list string) (k : nat) (sats1 sats2 : list Sat) :
  length lines1 = 3 * k ->
  read_sats readtle lines1 = Ok sats1 ->
  read_sats readtle lines2 = Ok sats2 ->
  read_sats readtle (lines1 ++ lines2) = Ok (sats1 ++ sats2).
Proof.
  rewrite !read_sats_triplets. intros Hlen H1 H2.
  by rewrite (triplets_app _ _ k Hlen), mapM_app, H1, H2.
Qed.

Lemma read_sats_app_witness :
  read_sats toy_readtle (["A"; "1 a"; "2 a"] ++ ["B"; "1 b"; "2 b"; "C"])
  = Ok ([sat_A] ++ [sat_B]).
Proof. by apply (read_sats_app toy_readtle _ _ 1). Defined.

(** X11.  [read_tle_files] gives no partial mapping: when a URL cannot be
    fetched or its catalog is rejected, and every URL before it was read,
    the call raises that exception. *)
Theorem read_tle_files_raises
    (urlopen_lines : string -> result (list string))
    (readtle : string -> string -> string -> result Sat)
    (tle_files : list string) (i : nat) (tle_file : string) (e : exn) :
  tle_files !! i = Some tle_file ->
  (urlopen_lines tle_file = Raise e
   \/ exists lines, urlopen_lines tle_file = Ok lines
                    /\ read_sats readtle lines = Raise e) ->
  (forall j url, j < i -> tle_files !! j = Some url ->
     exists lines sats, urlopen_lines url = Ok lines
                        /\ read_sats readtle lines = Ok sats) ->
  read_tle_files urlopen_lines readtle tle_files = Raise e.
Proof.
  intros Hi Hfail Hbefore. unfold read_tle_files.
  rewrite read_tle_loop_store.
  rewrite (mapM_raise _ _ i tle_file e Hi); [done| |].
  - unfold fetch_group. destruct Hfail as [->|(lines & -> & Hr)]; [done|].
    cbn [bind]. by rewrite Hr.
  - intros j url Hj Hurl.
    destruct (Hbefore j url Hj Hurl) as (lines & sats & Hl & Hs).
    unfold fetch_group. by rewrite Hl; cbn [bind]; rewrite Hs.
Qed.

Lemma read_tle_files_raises_witness :
  read_tle_files toy_urlopen toy_readtle ["http://a/x.txt"; "http://c/z.txt"]
  = Raise URLError.
Proof.
  apply (read_tle_files_raises toy_urlopen toy_readtle _ 1 "http://c/z.txt").
  - reflexivity.
  - by left.
  - intros [|j] url Hj; [|lia]. intros [= <-].
    by exists ["A"; "1 a"; "2 a"], [sat_A].
Defined.

(** X12.  The five default catalogs have five different keys, so when all
    are fetched and parsed the mapping has the five entries GPS-OPS,
    GLO-OPS, GALILEO, BEIDOU, SBAS in this order, each holding the records
    of its own catalog. *)
Theorem read_tle_files_default
    (urlopen_lines : string -> result (list string))
    (readtle : string -> string -> string -> result Sat)
    (entries : list (string * list Sat)) :
  mapM (fetch_group urlopen_lines readtle) TLE_FILES = Ok entries ->
  read_tle_files urlopen_lines readtle TLE_FILES = Ok entries
  /\ PyDict.keys entries = ["GPS-OPS"; "GLO-OPS"; "GALILEO"; "BEIDOU"; "SBAS"]
  /\ PyDict.len entries = 5.
Proof.
  intros Hall.
  pose proof (mapM_fetch_keys _ _ _ _ Hall) as Hkeys.
  assert (Hk : map fst entries
               = ["GPS-OPS"; "GLO-OPS"; "GALILEO"; "BEIDOU"; "SBAS"])
    by (rewrite Hkeys; by vm_compute).
  split; [|split].
  - unfold read_tle_files. rewrite read_tle_loop_store, Hall. cbn [bind].
    rewrite PyDictFacts.store_all_fresh; [done|]. simpl. rewrite Hk.
    by refine (bool_decide_unpack _ _).
  - exact Hk.
  - unfold PyDict.len. by rewrite <- (length_map fst), Hk.
Qed.

Lemma read_tle_files_default_witness :
  read_tle_files (fun _ => Ok ["A"; "1 a"; "2 a"]) toy_readtle TLE_FILES
  = Ok [("GPS-OPS", [sat_A]); ("GLO-OPS", [sat_A]); ("GALILEO", [sat_A]);
        ("BEIDOU", [sat_A]); ("SBAS", [sat_A])].
Proof.
  by apply (read_tle_files_default (fun _ => Ok ["A"; "1 a"; "2 a"])
              toy_readtle).
Defined.

(** ** Position computer: what a run is, when it returns, when it raises *)

Section ComputeRuns.

Variable compute : Observer -> Sat -> result Sat.
Variable observer : Observer.

Lemma compute_group_app (l1 l2 : list ref) (h : heap) :
  compute_group compute observer (l1 ++ l2) h
  = let* h1 := compute_group compute observer l1 h in
    compute_group compute observer l2 h1.
Proof.
  revert h. induction l1 as [|r l1 IH]; intros h; simpl; [done|].
  destruct (sat_compute compute observer r h); cbn [bind]; [|done].
  apply IH.
Qed.

(** The two nested loops are one loop over the records in traversal
    order. *)
Lemma compute_groups_flat (values : list ref) (h : heap) groups :
  mapM (deref (h_lists h)) values = Ok groups ->
  compute_groups compute observer values h
  = compute_group compute observer (concat groups) h.
Proof.
  revert h groups. induction values as [|l values IH]; intros h groups; simpl.
  - by intros [= <-].
  - destruct (deref (h_lists h) l) as [group|] eqn:Hl; cbn [bind]; [|done].
    destruct (mapM (deref (h_lists h)) values) as [groups'|] eqn:Hv;
      cbn [bind]; [|done].
    intros [= <-]. simpl. rewrite compute_group_app.
    destruct (compute_group compute observer group h) as [h1|] eqn:H1;
      cbn [bind]; [|done].
    apply IH. apply compute_group_frame in H1 as (_ & -> & _). done.
Qed.

(** A run that returns found every list it went through. *)
Lemma compute_groups_derefs (values : list ref) (h h' : heap) :
  compute_groups compute observer values h = Ok h' ->
  exists groups, mapM (deref (h_lists h)) values = Ok groups.
Proof.
  revert h. induction values as [|l values IH]; intros h; simpl; [eauto|].
  destruct (deref (h_lists h) l) as [group|] eqn:Hl; cbn [bind]; [|done].
  destruct (compute_group compute observer group h) as [h1|] eqn:H1;
    cbn [bind]; [|done].
  intros H2. destruct (IH h1 H2) as [groups Hg].
  apply compute_group_frame in H1 as (_ & Hlists & _).
  rewrite Hlists in Hg. rewrite Hg. cbn [bind]. eauto.
Qed.

Lemma values_group_refs (lists : list (list ref)) (d : PyDict.t ref) gs :
  mapM (deref lists) (PyDict.values d) = Ok gs ->
  exists groups,
    mapM (fun item : string * ref =>
            let* group := deref lists item.2 in Ok (item.1, group)) d
    = Ok groups
    /\ PyDict.values groups = gs.
Proof.
  revert gs. induction d as [|[k l] d IH]; intros gs; simpl.
  - intros [= <-]. by exists [].
  - destruct (deref lists l) as [group|]; cbn [bind]; [|done].
    destruct (mapM (deref lists) (PyDict.values d)) as [gs'|]; cbn [bind];
      [|done].
    intros [= <-]. destruct (IH gs' eq_refl) as (groups & -> & Hv).
    exists ((k, group) :: groups). cbn [bind]. split; [done|].
    simpl. by rewrite <- Hv.
Qed.

(** A body on which [compute] raises, reached after bodies on which it
    does not, ends the loop with its exception. *)
Lemma compute_group_raises (l : list ref) (h : heap) (i : nat) (r : ref)
    (body : Sat) (e : exn) :
  NoDup l -> l !! i = Some r ->
  h_sats h !! r = Some body -> compute observer body = Raise e ->
  (forall j r', j < i -> l !! j = Some r' ->
     exists body', h_sats h !! r' = Some body'
                   /\ is_ok (compute observer body')) ->
  compute_group compute observer l h = Raise e.
Proof.
  revert l h. induction i as [|i IH]; intros [|r0 l] h Hnd Hi Hb He Hbefore;
    try done; simpl in Hi.
  - injection Hi as ->. simpl. unfold sat_compute, deref.
    rewrite Hb. cbn [bind]. by rewrite He.
  - apply NoDup_cons in Hnd as [Hr0 Hnd].
    destruct (Hbefore 0 r0 (Nat.lt_0_succ i) eq_refl) as (body0 & Hb0 & Hok).
    cbn [compute_group].
    destruct (sat_compute compute observer r0 h) as [h1|e1] eqn:H1.
    2:{ unfold sat_compute, deref in H1. rewrite Hb0 in H1.
        cbn [bind] in H1. by destruct (compute observer body0). }
    cbn [bind].
    apply sat_compute_frame in H1 as [(_ & _ & _ & _ & Hother) _].
    assert (Hkeep : forall r', r' ∈ l -> h_sats h1 !! r' = h_sats h !! r').
    { intros r' Hr'. apply Hother. intros ->%list_elem_of_singleton. done. }
    apply (IH l h1 Hnd Hi); [| done |].
    + rewrite Hkeep; [done|]. by eapply list_elem_of_lookup_2.
    + intros j r' Hj Hr'.
      destruct (Hbefore (S j) r' ltac:(lia) Hr') as (body' & Hb' & Hok').
      exists body'. split; [|done].
      rewrite Hkeep; [done|]. by eapply list_elem_of_lookup_2.
Qed.

End ComputeRuns.

(** X13.  Whatever the propagation engine does, a call of
    [compute_sat_positions] that returns hands back the reference it was
    given and leaves the dict, the lists and every body outside the
    mapping as they were; the store holds as many bodies as before, and
    [compute] was called on the records of the mapping in traversal
    order. *)
Theorem compute_sat_positions_returns
    (compute : Observer -> Sat -> result Sat) (observer : Observer)
    (sat_groups : ref) (h : heap) (r : ref) (h' : heap) :
  compute_sat_positions compute sat_groups observer h = Ok (r, h') ->
  r = sat_groups
  /\ exists groups,
       group_refs h sat_groups = Ok groups
       /\ group_refs h' sat_groups = Ok groups
       /\ frame h h' (flat_refs groups).
Proof.
  unfold compute_sat_positions, group_refs.
  destruct (deref (h_dicts h) sat_groups) as [d|] eqn:Hd; cbn [bind]; [|done].
  destruct (compute_groups compute observer (PyDict.values d) h)
    as [h1|] eqn:Hrun; cbn [bind]; [|done].
  intros [= <- <-]. split; [done|].
  destruct (compute_groups_derefs _ _ _ _ _ Hrun) as [gs Hgs].
  destruct (values_group_refs _ _ _ Hgs) as (groups & Hgroups & Hvalues).
  pose proof (compute_groups_frame _ _ _ _ _ _ Hgs Hrun) as Hframe.
  exists groups. unfold flat_refs. rewrite Hvalues.
  pose proof Hframe as (Hdicts & Hlists & _).
  rewrite Hdicts, Hlists, Hd. cbn [bind].
  split; [exact Hgroups|]. split; [exact Hgroups | exact Hframe].
Qed.

Lemma compute_sat_positions_returns_witness :
  exists h',
    compute_sat_positions toy_compute 0 toy_observer toy_heap = Ok (0, h')
    /\ frame toy_heap h' [0; 1; 2].
Proof.
  eexists. split; [by vm_compute|].
  destruct (compute_sat_positions_returns toy_compute toy_observer 0
              toy_heap 0 _ eq_refl) as (_ & groups & Hg & _ & Hf).
  injection Hg as <-. exact Hf.
Defined.

(** X14.  One failing record aborts the call: when no body is listed
    twice and [compute] raises on a record after returning on every record
    before it in traversal order, [compute_sat_positions] raises that
    exception and returns no mapping. *)
Theorem compute_sat_positions_raises
    (compute : Observer -> Sat -> result Sat) (observer : Observer)
    (sat_groups : ref) (h : heap) (groups : PyDict.t (list ref))
    (i : nat) (r : ref) (body : Sat) (e : exn) :
  group_refs h sat_groups = Ok groups ->
  NoDup (flat_refs groups) ->
  flat_refs groups !! i = Some r ->
  h_sats h !! r = Some body -> compute observer body = Raise e ->
  (forall j r', j < i -> flat_refs groups !! j = Some r' ->
     exists body', h_sats h !! r' = Some body'
                   /\ is_ok (compute observer body')) ->
  compute_sat_positions compute sat_groups observer h = Raise e.
Proof.
  intros Hrefs Hnd Hi Hb He Hbefore.
  unfold group_refs in Hrefs. unfold compute_sat_positions.
  destruct (deref (h_dicts h) sat_groups) as [d|]; cbn [bind] in *; [|done].
  destruct (group_refs_values _ _ _ Hrefs) as [Hvalues _].
  rewrite (compute_groups_flat _ _ _ _ _ Hvalues).
  by rewrite (compute_group_raises compute observer _ h i r body e).
Qed.

Lemma compute_sat_positions_raises_witness :
  compute_sat_positions picky_compute 0 toy_observer toy_heap
  = Raise RuntimeError.
Proof.
  apply (compute_sat_positions_raises picky_compute toy_observer 0 toy_heap
           [("X", [0; 1]); ("Y", [2])] 1 1 sat_B RuntimeError);
    try reflexivity.
  - by refine (bool_decide_unpack _ _).
  - intros [|j] r' Hj; [|lia]. intros [= <-]. by exists sat_A.
Defined.

(** ** Position computer: the mapping read back after the call *)

Section ComputeAll.

Variable compute : Observer -> Sat -> result Sat.
Variable observer : Observer.

Lemma mapM_deref_ext (s1 s2 : list Sat) (l : list ref) :
  (forall r, r ∈ l -> s1 !! r = s2 !! r) ->
  mapM (deref s1) l = mapM (deref s2) l.
Proof.
  induction l as [|r l IH]; intros Hext; [done|]. simpl.
  unfold deref at 1 3. rewrite (Hext r) by (by left).
  destruct (s2 !! r); cbn [bind]; [|done].
  rewrite IH; [done|]. intros r' Hr'. apply Hext. by right.
Qed.

Lemma load_items_ext (s1 s2 : list Sat) (groups : PyDict.t (list ref)) :
  (forall r, r ∈ concat (PyDict.values groups) -> s1 !! r = s2 !! r) ->
  mapM (load_item s1) groups = mapM (load_item s2) groups.
Proof.
  induction groups as [|[k g] groups IH]; intros Hext; [done|]. simpl in *.
  unfold load_item at 1 3. cbn [fst snd].
  rewrite (mapM_deref_ext s1 s2 g)
    by (intros r Hr; apply Hext, elem_of_app; by left).
  destruct (mapM (deref s2) g); cbn [bind]; [|done].
  rewrite IH; [done|]. intros r Hr. apply Hext, elem_of_app. by right.
Qed.

(** One group whose bodies are all different: the loop returns, and each
    body is then what [compute] made of it. *)
Lemma compute_group_run (l : list ref) (h : heap) (bodies bodies' : list Sat) :
  NoDup l ->
  mapM (deref (h_sats h)) l = Ok bodies ->
  mapM (compute observer) bodies = Ok bodies' ->
  exists h',
    compute_group compute observer l h = Ok h'
    /\ mapM (deref (h_sats h')) l = Ok bodies'.
Proof.
  revert h bodies bodies'.
  induction l as [|r l IH]; intros h bodies bodies' Hnd; simpl.
  - intros [= <-] [= <-]. by exists h.
  - apply NoDup_cons in Hnd as [Hr Hnd].
    destruct (deref (h_sats h) r) as [body|] eqn:Hb; cbn [bind]; [|done].
    destruct (mapM (deref (h_sats h)) l) as [rest|] eqn:Hrest; cbn [bind];
      [|done].
    intros [= <-]. simpl.
    destruct (compute observer body) as [body'|] eqn:Hc; cbn [bind]; [|done].
    destruct (mapM (compute observer) rest) as [rest'|] eqn:Hrest';
      cbn [bind]; [|done].
    intros [= <-].
    destruct (sat_compute compute observer r h) as [h1|] eqn:H1.
    2:{ unfold sat_compute in H1. rewrite Hb in H1. cbn [bind] in H1.
        rewrite Hc in H1. done. }
    cbn [bind].
    destruct (sat_compute_frame _ _ _ _ _ H1)
      as [(_ & _ & _ & _ & Hother) (b & b' & Hb1 & Hc1 & Hb1')].
    assert (b' = body') as ->.
    { unfold deref in Hb. rewrite Hb1 in Hb. injection Hb as ->.
      rewrite Hc in Hc1. by injection Hc1. }
    destruct (IH h1 rest rest' Hnd) as (h' & Hrun & Hload); [|done|].
    { rewrite (mapM_deref_ext (h_sats h1) (h_sats h) l); [exact Hrest|].
      intros r' Hr'. apply Hother. intros ->%list_elem_of_singleton. done. }
    exists h'. split; [done|].
    apply compute_group_frame in Hrun as (_ & _ & _ & _ & Hkeep).
    unfold deref at 1. rewrite (Hkeep r Hr), Hb1'. cbn [bind].
    by rewrite Hload.
Qed.

Lemma compute_groups_run (items : PyDict.t ref) (h : heap)
    (groups : PyDict.t (list ref)) (d d' : PyDict.t (list Sat)) :
  mapM (fun item : string * ref =>
          let* group := deref (h_lists h) item.2 in Ok (item.1, group)) items
  = Ok groups ->
  NoDup (concat (PyDict.values groups)) ->
  mapM (load_item (h_sats h)) groups = Ok d ->
  compute_all compute observer d = Ok d' ->
  exists h',
    compute_groups compute observer (PyDict.values items) h = Ok h'
    /\ mapM (load_item (h_sats h')) groups = Ok d'.
Proof.
  unfold compute_all. revert h groups d d'.
  induction items as [|[k l] items IH]; intros h groups d d'; simpl.
  - intros [= <-] _ [= <-] [= <-]. by exists h.
  - destruct (deref (h_lists h) l) as [g|] eqn:Hl; cbn [bind]; [|done].
    destruct (mapM _ items) as [groups'|] eqn:Hitems; cbn [bind]; [|done].
    intros [= <-]. simpl. intros (Hg & Hdis & Hnd)%NoDup_app.
    unfold load_item at 1. cbn [fst snd].
    destruct (mapM (deref (h_sats h)) g) as [sats|] eqn:Hsats; cbn [bind];
      [|done].
    destruct (mapM (load_item (h_sats h)) groups') as [d0|] eqn:Hd0;
      cbn [bind]; [|done].
    intros [= <-]. simpl. unfold compute_item at 1. cbn [fst snd].
    destruct (mapM (compute observer) sats) as [sats'|] eqn:Hsats';
      cbn [bind]; [|done].
    destruct (mapM (compute_item compute observer) d0) as [d0'|] eqn:Hd0';
      cbn [bind]; [|done].
    intros [= <-].
    destruct (compute_group_run g h sats sats' Hg Hsats Hsats')
      as (h1 & Hrun1 & Hload1).
    rewrite Hrun1. cbn [bind].
    pose proof (compute_group_frame _ _ _ _ _ Hrun1)
      as (_ & Hlists1 & _ & _ & Hkeep1).
    destruct (IH h1 groups' d0 d0') as (h' & Hrun & Hload); try done.
    { by rewrite Hlists1. }
    { rewrite (load_items_ext (h_sats h1) (h_sats h) groups');
        [exact Hd0|].
      intros r Hr. apply Hkeep1. intros Hin. by apply (Hdis r). }
    exists h'. split; [done|].
    assert (Hvalues : mapM (deref (h_lists h1)) (PyDict.values items)
                      = Ok (PyDict.values groups')).
    { rewrite Hlists1. by apply group_refs_values. }
    pose proof (compute_groups_frame _ _ _ _ _ _ Hvalues Hrun)
      as (_ & _ & _ & _ & Hkeep).
    unfold load_item at 1. cbn [fst snd].
    rewrite (mapM_deref_ext (h_sats h') (h_sats h1) g), Hload1.
    + cbn [bind]. by rewrite Hload.
    + intros r Hr. apply Hkeep. by apply Hdis.
Qed.

End ComputeAll.

(** X15.  The position computer refines [compute] applied record by
    record: on a store where no body of the mapping is listed twice, if
    [compute] returns on every record of the mapping read through
    [sat_groups], the call returns, and the mapping read through the same
    reference afterwards has the same keys and, in each group, the
    computed bodies in the order of the records. *)
Theorem compute_sat_positions_computes
    (compute : Observer -> Sat -> result Sat) (observer : Observer)
    (sat_groups : ref) (h : heap) (groups : PyDict.t (list ref))
    (d d' : PyDict.t (list Sat)) :
  group_refs h sat_groups = Ok groups ->
  NoDup (flat_refs groups) ->
  load_groups h sat_groups = Ok d ->
  compute_all compute observer d = Ok d' ->
  exists h',
    compute_sat_positions compute sat_groups observer h = Ok (sat_groups, h')
    /\ load_groups h' sat_groups = Ok d'.
Proof.
  intros Hrefs Hnd Hload Hall. unfold load_groups in *.
  rewrite Hrefs in Hload. cbn [bind] in Hload.
  unfold group_refs in Hrefs. unfold compute_sat_positions, group_refs.
  destruct (deref (h_dicts h) sat_groups) as [items|] eqn:Hd;
    cbn [bind] in *; [|done].
  destruct (compute_groups_run compute observer items h groups d d'
              Hrefs Hnd Hload Hall) as (h' & Hrun & Hload').
  exists h'. rewrite Hrun. cbn [bind]. split; [done|].
  destruct (group_refs_values _ _ _ Hrefs) as [Hvalues _].
  pose proof (compute_groups_frame _ _ _ _ _ _ Hvalues Hrun)
    as (Hdicts & Hlists & _).
  rewrite Hdicts, Hlists, Hd. cbn [bind]. rewrite Hrefs. cbn [bind].
  exact Hload'.
Qed.

Lemma compute_sat_positions_computes_witness :
  exists h',
    compute_sat_positions toy_compute 0 toy_observer toy_heap = Ok (0, h')
    /\ load_groups h' 0
       = Ok [("X", [mkSat "A" "1 a" "2 a" 1 0.5 0.25 2;
                    mkSat "B" "1 b" "2 b" 1 0.5 0.25 2]);
             ("Y", [mkSat "C" "1 c" "2 c" 1 0.5 0.25 2])].
Proof.
  apply (compute_sat_positions_computes toy_compute toy_observer 0 toy_heap
           [("X", [0; 1]); ("Y", [2])]
           [("X", [sat_A; sat_B]); ("Y", [sat_C])]);
    try reflexivity.
  by refine (bool_decide_unpack _ _).
Defined.

(** ** Renderers: annotations, timestamps, end colors, what is not read *)

Section PlotMore.

Variable Color : Type.
Variable nipy_spectral : float -> Color.
Variable mill : float -> float -> float * float.

Lemma annotation_points (sats : list Sat) (color : Color) :
  map (fun a : string * float * float * Color => (a.1.1.2, a.1.2, a.2))
      (map (fun sat => (sat_name sat, sat_az sat, radius sat, color)) sats)
  = scatter_points (map sat_az sats, map radius sats, color, @None string).
Proof.
  unfold scatter_points. cbn [fst snd].
  induction sats as [|sat sats IH]; [done|]. simpl. by rewrite IH.
Qed.

Lemma polar_calls_visible (groups1 groups2 : list (list Sat))
    (colors : list Color) :
  map visible groups1 = map visible groups2 ->
  zip_with polar_group_calls groups1 colors
  = zip_with polar_group_calls groups2 colors.
Proof.
  revert groups2 colors.
  induction groups1 as [|g1 groups1 IH]; intros [|g2 groups2] [|c colors];
    try done.
  simpl. intros [= Hg Hrest]. rewrite (IH groups2 colors Hrest). f_equal.
  unfold polar_group_calls. by rewrite Hg.
Qed.

Lemma polar_scatter_colors (sat_groups : PyDict.t (list Sat)) calls :
  plot_polar_azel Color nipy_spectral sat_groups = Ok calls ->
  scatter_colors Color calls
  = group_colors Color nipy_spectral (PyDict.len sat_groups).
Proof.
  intros Hcalls. unfold scatter_colors.
  rewrite (plot_polar_azel_scatters _ _ _ _ Hcalls).
  apply zip_with_colors; [done|]. apply values_colors_length.
Qed.

Lemma ground_scatter_colors (m : utils_module) (w : world)
    (obs_time : option datetime) (sat_groups : PyDict.t (list Sat)) calls :
  plot_ground_tracks Color nipy_spectral mill m w sat_groups obs_time
  = Ok calls ->
  scatter_colors Color calls
  = group_colors Color nipy_spectral (PyDict.len sat_groups).
Proof.
  intros Hcalls. unfold scatter_colors.
  rewrite (plot_ground_tracks_scatters _ _ _ _ _ _ _ _ Hcalls).
  apply zip_with_colors; [done|]. by rewrite group_colors_length.
Qed.

Lemma linspace01_last (n : nat) :
  last (linspace01 (S (S n))) = Some 1%float.
Proof. unfold linspace01. by rewrite last_snoc. Qed.

End PlotMore.

(** X17.  In the polar plot every annotation sits on a plotted point of
    its group and has the color of that group's scatter call: the
    annotation positions and colors, in order, are the points of the
    scatter calls, one annotation per point. *)
Theorem plot_polar_azel_annotations_on_points (Color : Type)
    (nipy_spectral : float -> Color) (sat_groups : PyDict.t (list Sat)) :
  exists calls,
    plot_polar_azel Color nipy_spectral sat_groups = Ok calls
    /\ map (fun a : string * float * float * Color => (a.1.1.2, a.1.2, a.2))
           (annotations Color calls)
       = concat (map scatter_points (scatters Color calls)).
Proof.
  eexists. split; [apply plot_polar_azel_calls|].
  rewrite (plot_polar_azel_scatters Color nipy_spectral sat_groups _
             (plot_polar_azel_calls _ _ _)).
  rewrite (plot_polar_azel_annotations Color nipy_spectral sat_groups _
             (plot_polar_azel_calls _ _ _)).
  generalize (group_colors Color nipy_spectral (PyDict.len sat_groups)).
  induction (PyDict.values sat_groups) as [|g gs IH]; intros [|c colors];
    try done.
  cbn [zip_with concat map]. by rewrite map_app, IH, annotation_points.
Qed.

(** X18.  The polar plot reads the visible satellites only: two mappings
    whose groups have, position by position, the same visible satellites
    give the same calls, whatever their keys and whatever satellites lie
    at or below the horizon. *)
Theorem plot_polar_azel_visible_only (Color : Type)
    (nipy_spectral : float -> Color)
    (sat_groups1 sat_groups2 : PyDict.t (list Sat)) :
  map visible (PyDict.values sat_groups1)
  = map visible (PyDict.values sat_groups2) ->
  plot_polar_azel Color nipy_spectral sat_groups1
  = plot_polar_azel Color nipy_spectral sat_groups2.
Proof.
  intros Hvis. rewrite !plot_polar_azel_calls.
  assert (Hlen : PyDict.len sat_groups1 = PyDict.len sat_groups2).
  { apply (f_equal length) in Hvis. unfold PyDict.values in Hvis.
    by rewrite !length_map in Hvis. }
  by rewrite Hlen, (polar_calls_visible Color _ _ _ Hvis).
Qed.

Lemma plot_polar_azel_visible_only_witness :
  plot_polar_azel float toy_colormap
    [("GPS-OPS", [below_sat; zenith_sat; horizon_sat])]
  = plot_polar_azel float toy_colormap [("SBAS", [zenith_sat])].
Proof. by apply (plot_polar_azel_visible_only float toy_colormap). Defined.

(** X19.  A timestamp passed to [plot_ground_tracks] is the one of the
    night shading and of the title, and nothing else depends on it: the
    calls between the shading and the title are the same for every
    timestamp, every clock and every module default, one per group. *)
Theorem plot_ground_tracks_timestamp (Color : Type)
    (nipy_spectral : float -> Color)
    (mill : float -> float -> float * float)
    (sat_groups : PyDict.t (list Sat)) :
  exists body,
    length body = PyDict.len sat_groups
    /\ forall (m : utils_module) (w : world) (t : datetime),
         plot_ground_tracks Color nipy_spectral mill m w sat_groups (Some t)
         = Ok ([DrawCoastlines Color; BlueMarble Color; Nightshade Color t]
                 ++ body ++ [SupTitle Color t; Legend Color]).
Proof.
  eexists. split; [|intros m w t; apply plot_ground_tracks_calls].
  rewrite length_zip_with, group_colors_length.
  unfold PyDict.items, PyDict.len. lia.
Qed.

(** X20.  The end colors: a mapping with one group draws it in the color
    of sample 0, and with two or more groups the last group is drawn in
    the color of sample 1, in both renderers. *)
Theorem group_colors_ends (Color : Type) (nipy_spectral : float -> Color)
    (mill : float -> float -> float * float)
    (m : utils_module) (w : world) (obs_time : option datetime)
    (sat_groups : PyDict.t (list Sat)) :
  exists polar ground,
    plot_polar_azel Color nipy_spectral sat_groups = Ok polar
    /\ plot_ground_tracks Color nipy_spectral mill m w sat_groups obs_time
       = Ok ground
    /\ scatter_colors Color ground = scatter_colors Color polar
    /\ (PyDict.len sat_groups = 1 ->
        scatter_colors Color polar = [nipy_spectral 0%float])
    /\ (2 <= PyDict.len sat_groups ->
        last (scatter_colors Color polar) = Some (nipy_spectral 1%float)).
Proof.
  do 2 eexists.
  split; [apply plot_polar_azel_calls|].
  split; [apply plot_ground_tracks_calls|].
  rewrite (polar_scatter_colors Color nipy_spectral sat_groups _
             (plot_polar_azel_calls _ _ _)).
  rewrite (ground_scatter_colors Color nipy_spectral mill m w obs_time
             sat_groups _ (plot_ground_tracks_calls _ _ _ _ _ _ _)).
  split; [done|]. unfold group_colors. split.
  - by intros ->.
  - intros Hn. destruct (PyDict.len sat_groups) as [|[|n]]; [lia..|].
    change (last (nipy_spectral <$> linspace01 (S (S n)))
            = Some (nipy_spectral 1%float)).
    by rewrite fmap_last, linspace01_last.
Qed.

Lemma ground_call_view {Color : Type}
    (mill : float -> float -> float * float)
    (item : string * list Sat) (color : Color) :
  ground_group_call mill item color
  = Scatter
      (map (fun p : float * float => (mill (rad2deg p.1) (rad2deg p.2)).1)
           (map (fun sat => (sat_sublong sat, sat_sublat sat)) item.2))
      (map (fun p : float * float => (mill (rad2deg p.1) (rad2deg p.2)).2)
           (map (fun sat => (sat_sublong sat, sat_sublat sat)) item.2))
      color (Some item.1).
Proof. unfold ground_group_call, ground_point. by rewrite !map_map. Qed.

Lemma ground_calls_view {Color : Type}
    (mill : float -> float -> float * float)
    (items1 items2 : list (string * list Sat)) (colors : list Color) :
  ground_view items1 = ground_view items2 ->
  zip_with (ground_group_call mill) items1 colors
  = zip_with (ground_group_call mill) items2 colors.
Proof.
  revert items2 colors.
  induction items1 as [|[k1 g1] items1 IH];
    intros [|[k2 g2] items2] [|c colors]; try done.
  cbn [ground_view map zip_with fst snd]. intros [= -> Hg Hrest].
  rewrite (IH items2 colors Hrest), !ground_call_view. cbn [fst snd].
  by rewrite Hg.
Qed.

(** X21.  The ground-track plot reads the keys and the sub-points only:
    two mappings with the same keys and, record by record, the same
    sub-longitude and sub-latitude give the same calls, whatever the
    azimuths and elevations an observer's [compute] left in the bodies. *)
Theorem plot_ground_tracks_subpoints_only (Color : Type)
    (nipy_spectral : float -> Color)
    (mill : float -> float -> float * float)
    (m : utils_module) (w : world) (obs_time : option datetime)
    (sat_groups1 sat_groups2 : PyDict.t (list Sat)) :
  ground_view sat_groups1 = ground_view sat_groups2 ->
  plot_ground_tracks Color nipy_spectral mill m w sat_groups1 obs_time
  = plot_ground_tracks Color nipy_spectral mill m w sat_groups2 obs_time.
Proof.
  intros Hview. rewrite !plot_ground_tracks_calls.
  assert (Hlen : PyDict.len sat_groups1 = PyDict.len sat_groups2).
  { apply (f_equal length) in Hview. unfold ground_view in Hview.
    by rewrite !length_map in Hview. }
  unfold PyDict.items.
  by rewrite Hlen, (ground_calls_view mill _ _ _ Hview).
Qed.

Lemma plot_ground_tracks_subpoints_only_witness :
  plot_ground_tracks float toy_colormap toy_mill toy_module (mkWorld 3)
    [("GPS-OPS", [zenith_sat])] None
  = plot_ground_tracks float toy_colormap toy_mill toy_module (mkWorld 3)
      [("GPS-OPS", [sat_A])] None.
Proof.
  by apply (plot_ground_tracks_subpoints_only float toy_colormap toy_mill).
Defined.
